(** * gh-hist-to-md: GitHub activity JSON to hybrid Markdown

    A shallow embedding of [gh-hist-to-md.py] and the properties of its
    loader, classifiers and renderer.

    Conventions of the embedding.
    - A Python [str] is a [string]; a character is a code point below 256,
      with Python's own whitespace and lower-casing tables on that range.
    - A value read by [json.load] is a [json]; numbers are integers (the
      program never computes with them).  An object is the association
      list of its keys, looked up from the front.
    - A call that can raise returns an [outcome]: [Ok v] or [Raise e].
    - [datetime.fromisoformat], the JSON decoder and the [repr] of
      containers are library code: they are parameters of the
      development, and the theorems hold for all of them.
    - [strftime] is the one of the C locale; the text of a year under
      [%Y], which depends on the platform for years below 1000, is a
      parameter too. *)

From Stdlib Require Import ZArith List Bool Lia Ascii String.
From Stdlib Require Import Sorted Permutation DecimalString.
Import ListNotations.
Local Open Scope list_scope.
Local Open Scope string_scope.

(** ** Exceptions and the error monad *)

Inductive exn : Type :=
| AttributeError
| TypeError
| ValueError
| FileNotFoundError
| JSONDecodeError
| PermissionError
| IsADirectoryError
| UnicodeDecodeError.

Inductive outcome (A : Type) : Type :=
| Ok (a : A)
| Raise (e : exn).

Arguments Ok {A} a.
Arguments Raise {A} e.

Definition bind {A B} (m : outcome A) (k : A -> outcome B) : outcome B :=
  match m with
  | Ok a => k a
  | Raise e => Raise e
  end.

Notation "x <- m ;; k" := (bind m (fun x => k))
  (at level 61, m at next level, right associativity).

Fixpoint mapM {A B} (f : A -> outcome B) (l : list A) : outcome (list B) :=
  match l with
  | [] => Ok []
  | a :: l' => b <- f a ;; bs <- mapM f l' ;; Ok (b :: bs)
  end.

(** ** Strings *)

Definition NL : ascii := "010"%char.

Definition cp (c : ascii) : N := N_of_ascii c.

(** [str.isspace] on the code points below 256. *)
Definition is_space (c : ascii) : bool :=
  let n := cp c in
  ((9 <=? n) && (n <=? 13) || (28 <=? n) && (n <=? 32)
   || (n =? 133) || (n =? 160))%N.

(** [str.lower] on one code point below 256: A-Z, and the Latin-1 capitals
    U+00C0..U+00DE except the multiplication sign U+00D7. *)
Definition lower_char (c : ascii) : ascii :=
  let n := cp c in
  if ((65 <=? n) && (n <=? 90)
      || (192 <=? n) && (n <=? 222) && negb (n =? 215))%N
  then ascii_of_N (n + 32) else c.

Fixpoint lower (s : string) : string :=
  match s with
  | "" => ""
  | String c s' => String (lower_char c) (lower s')
  end.

Fixpoint lstrip (s : string) : string :=
  match s with
  | "" => ""
  | String c s' => if is_space c then lstrip s' else s
  end.

Fixpoint rstrip (s : string) : string :=
  match s with
  | "" => ""
  | String c s' =>
      match rstrip s' with
      | "" => if is_space c then "" else String c ""
      | r => String c r
      end
  end.

(** [s.strip()] *)
Definition strip (s : string) : string := rstrip (lstrip s).

(** [s.split(sep)] for a one-character separator; never empty. *)
Fixpoint split (sep : ascii) (s : string) : list string :=
  match s with
  | "" => [""]
  | String c s' =>
      if Ascii.eqb c sep then "" :: split sep s'
      else match split sep s' with
           | [] => [String c ""]
           | w :: ws => String c w :: ws
           end
  end.

(** [sep.join(l)] *)
Fixpoint join (sep : string) (l : list string) : string :=
  match l with
  | [] => ""
  | [x] => x
  | x :: l' => x ++ sep ++ join sep l'
  end.

(** [c in s] *)
Fixpoint contains (c : ascii) (s : string) : bool :=
  match s with
  | "" => false
  | String d s' => Ascii.eqb c d || contains c s'
  end.

(** [s[n:]] *)
Fixpoint drop (n : nat) (s : string) : string :=
  match n, s with
  | O, _ => s
  | S _, "" => ""
  | S n', String _ s' => drop n' s'
  end.

(** [s.replace(c, by)] for a one-character pattern. *)
Fixpoint replace (c : ascii) (by_ : string) (s : string) : string :=
  match s with
  | "" => ""
  | String d s' =>
      if Ascii.eqb d c then by_ ++ replace c by_ s'
      else String d (replace c by_ s')
  end.

(** Lexicographic [<] of [str], by code point. *)
Fixpoint str_ltb (s t : string) : bool :=
  match s, t with
  | _, "" => false
  | "", String _ _ => true
  | String a s', String b t' =>
      if (cp a <? cp b)%N then true
      else if (cp a =? cp b)%N then str_ltb s' t' else false
  end.

(** [str(n)] for an integer. *)
Definition str_of_Z (n : Z) : string := NilZero.string_of_int (Z.to_int n).
Definition str_of_nat (n : nat) : string := str_of_Z (Z.of_nat n).

(** ** JSON values *)

#[local] Set Warnings "-register-all".

Inductive json : Type :=
| JNull
| JBool (b : bool)
| JNum (n : Z)
| JStr (s : string)
| JArr (items : list json)
| JObj (fields : list (string * json)).

#[local] Set Warnings "register-all".

(** Truth value of a Python object. *)
Definition truthy (v : json) : bool :=
  match v with
  | JNull => false
  | JBool b => b
  | JNum n => negb (n =? 0)%Z
  | JStr s => negb (s =? "")
  | JArr l => match l with [] => false | _ => true end
  | JObj l => match l with [] => false | _ => true end
  end.

Fixpoint assoc (k : string) (fields : list (string * json)) : option json :=
  match fields with
  | [] => None
  | (k', v) :: rest => if k' =? k then Some v else assoc k rest
  end.

(** [v.get(k, default)]: only a dict has the method. *)
Definition py_get (v : json) (k : string) (default : json) : outcome json :=
  match v with
  | JObj fields =>
      match assoc k fields with
      | Some x => Ok x
      | None => Ok default
      end
  | _ => Raise AttributeError
  end.

(** [v.lower()]: only a str has the method. *)
Definition py_lower (v : json) : outcome string :=
  match v with
  | JStr s => Ok (lower s)
  | _ => Raise AttributeError
  end.

(** ** get_first_line *)

Definition first_line (text : string) : string := hd "" (split NL text).

Definition get_first_line (text : json) : outcome string :=
  if negb (truthy text) then Ok ""
  else match text with
       | JStr s =>
           let first_line := strip (first_line s) in
           if (80 <? String.length first_line)%nat
           then Ok (substring 0 77 first_line ++ "...")
           else Ok first_line
       | _ => Raise AttributeError
       end.

(** ** datetime *)

(** A [datetime] object: its calendar fields, and its UTC offset in
    microseconds when it is offset-aware ([None] for a naive one).
    Python only builds objects whose fields are in range, and such an
    object is always true. *)
Record datetime : Type := mkdt {
  year : Z; month : Z; day : Z;
  hour : Z; minute : Z; second : Z; microsecond : Z;
  utcoffset : option Z
}.

(** [datetime.min] *)
Definition datetime_min : datetime := mkdt 1 1 1 0 0 0 0 None.

Definition is_leap (y : Z) : bool :=
  ((y mod 4 =? 0) && (negb (y mod 100 =? 0) || (y mod 400 =? 0)))%Z.

Definition days_before_year (y : Z) : Z :=
  (let p := y - 1 in p * 365 + p / 4 - p / 100 + p / 400)%Z.

Definition days_in_month (y m : Z) : Z :=
  (if (m =? 2) && is_leap y then 29
   else nth (Z.to_nat m) [0; 31; 28; 31; 30; 31; 30; 31; 31; 30; 31; 30; 31] 0)%Z.

Definition days_before_month (y m : Z) : Z :=
  (nth (Z.to_nat m) [0; 0; 31; 59; 90; 120; 151; 181; 212; 243; 273; 304; 334] 0
   + (if (2 <? m) && is_leap y then 1 else 0))%Z.

(** [d.toordinal()] *)
Definition toordinal (d : datetime) : Z :=
  (days_before_year (year d) + days_before_month (year d) (month d) + day d)%Z.

(** Microseconds of the calendar fields since the start of day 0: the
    order of the field tuples of two objects is the order of these. *)
Definition wall_clock (d : datetime) : Z :=
  (((toordinal d * 24 + hour d) * 60 + minute d) * 60 + second d) * 1000000
  + microsecond d.

(** [a < b].  Two naive objects compare by their fields, two aware ones by
    their instants; a naive and an aware one do not compare. *)
Definition dt_lt (a b : datetime) : outcome bool :=
  match utcoffset a, utcoffset b with
  | None, None => Ok (wall_clock a <? wall_clock b)%Z
  | Some oa, Some ob => Ok (wall_clock a - oa <? wall_clock b - ob)%Z
  | _, _ => Raise TypeError
  end.

(** [a > b] *)
Definition dt_gt (a b : datetime) : outcome bool := dt_lt b a.

Definition pad2 (n : Z) : string :=
  if (n <? 10)%Z then "0" ++ str_of_Z n else str_of_Z n.

(** A year of four digits, as the platforms that pad the year print it. *)
Definition pad4 (n : Z) : string :=
  if (n <? 10)%Z then "000" ++ str_of_Z n
  else if (n <? 100)%Z then "00" ++ str_of_Z n
  else if (n <? 1000)%Z then "0" ++ str_of_Z n
  else str_of_Z n.

Definition month_abbr (m : Z) : string :=
  nth (Z.to_nat m)
    [""; "Jan"; "Feb"; "Mar"; "Apr"; "May"; "Jun";
     "Jul"; "Aug"; "Sep"; "Oct"; "Nov"; "Dec"] "".

(** [dt.strftime("%b %d")] *)
Definition strftime_b_d (d : datetime) : string :=
  month_abbr (month d) ++ " " ++ pad2 (day d).

(** [dt.strftime("%Y-%m-%d")].  How [%Y] prints a year depends on the
    platform below 1000 (glibc prints the year 1 as [1], others as
    [0001]): [strftime_Y] is the text of a year, a parameter. *)
Definition strftime_Y_m_d (strftime_Y : Z -> string) (d : datetime) : string :=
  strftime_Y (year d) ++ "-" ++ pad2 (month d) ++ "-" ++ pad2 (day d).

(** The result of [datetime.fromisoformat] on a str: the object, or [None]
    when the library raises ValueError. *)
Definition iso_parser : Type := string -> option datetime.

(** ** parse_date, format_date *)

Definition parse_date (fromisoformat : iso_parser) (iso_string : json)
  : outcome (option datetime) :=
  if negb (truthy iso_string) then Ok None
  else match iso_string with
       | JStr s =>
           let iso_string := replace "Z" "+00:00" s in
           if contains "+" iso_string || contains "-" (drop 10 iso_string)
           then Ok (fromisoformat iso_string)
           else Ok (fromisoformat iso_string)
       | _ => Raise AttributeError
       end.

Definition format_date (dt : option datetime) : string :=
  match dt with
  | None => ""
  | Some d => strftime_b_d d
  end.

(** ** Grouped records *)

(** The normalized records; the fields are the keys of the dicts that the
    classifiers build. *)
Module Commit.
Record t : Type := mk { date : option datetime; message : string }.
End Commit.

Module Issue.
Record t : Type := mk {
  title : json; state : string; date : option datetime;
  url : json; body : json
}.
End Issue.

Module PR.
Record t : Type := mk {
  title : json; state : string; date : option datetime;
  url : json; merged : bool; body : json
}.
End PR.

(** A [defaultdict(list)]: the keys in insertion order, each with its
    list.  A key is any hashable value. *)
Definition grouped (A : Type) : Type := list (json * list A).

Definition hashable (v : json) : bool :=
  match v with
  | JArr _ | JObj _ => false
  | _ => true
  end.

(** The integer a bool or an int compares and hashes as. *)
Definition as_int (v : json) : option Z :=
  match v with
  | JBool b => Some (if b then 1 else 0)%Z
  | JNum n => Some n
  | _ => None
  end.

(** [a == b] on dict keys. *)
Definition key_eqb (a b : json) : bool :=
  match a, b with
  | JNull, JNull => true
  | JStr s, JStr t => (s =? t)
  | _, _ =>
      match as_int a, as_int b with
      | Some x, Some y => (x =? y)%Z
      | _, _ => false
      end
  end.

(** [g[repo].append(r)] once [repo] is known to be hashable. *)
Fixpoint group_append {A} (g : grouped A) (repo : json) (r : A) : grouped A :=
  match g with
  | [] => [(repo, [r])]
  | (k, rs) :: g' =>
      if key_eqb k repo then (k, app rs [r]) :: g'
      else (k, rs) :: group_append g' repo r
  end.

(** [g[repo]] for a key of [g]. *)
Fixpoint group_lookup {A} (g : grouped A) (repo : json) : list A :=
  match g with
  | [] => []
  | (k, rs) :: g' => if key_eqb k repo then rs else group_lookup g' repo
  end.

(** The subscript [grouped[repo]] hashes the key first. *)
Definition check_hashable (repo : json) : outcome unit :=
  if hashable repo then Ok tt else Raise TypeError.

(** ** list.sort(key=lambda x: x['date'] or datetime.min, reverse=True) *)

Definition sort_key (d : option datetime) : datetime :=
  match d with
  | Some x => x
  | None => datetime_min
  end.

(** [list.sort] only uses [<] on the keys, and with [reverse=True] it
    still keeps records of equal keys in their original order.  It is
    modelled by a stable insertion sort: the list it returns is the same,
    and it raises TypeError when two keys do not compare. *)
Fixpoint insert_desc {A} (date : A -> option datetime) (x : A) (l : list A)
  : outcome (list A) :=
  match l with
  | [] => Ok [x]
  | y :: l' =>
      lt <- dt_lt (sort_key (date x)) (sort_key (date y)) ;;
      if lt then (r <- insert_desc date x l' ;; Ok (y :: r))
      else Ok (x :: l)
  end.

Fixpoint sort_by_date_desc {A} (date : A -> option datetime) (l : list A)
  : outcome (list A) :=
  match l with
  | [] => Ok []
  | x :: l' => s <- sort_by_date_desc date l' ;; insert_desc date x s
  end.

(** [for repo in grouped: grouped[repo].sort(...)] *)
Definition sort_groups {A} (date : A -> option datetime) (g : grouped A)
  : outcome (grouped A) :=
  mapM (fun kv => s <- sort_by_date_desc date (snd kv) ;; Ok (fst kv, s)) g.

(** ** The classifiers *)

Section Classifiers.
Variable fromisoformat : iso_parser.

(** The body of the loop of [process_commits] up to the append: the
    repository identifier and the normalized record of one raw item. *)
Definition commit_record (item : json) : outcome (json * Commit.t) :=
  repository <- py_get item "repository" (JObj []) ;;
  repo <- py_get repository "name" (JStr "unknown") ;;
  commit <- py_get item "commit" (JObj []) ;;
  author <- py_get commit "author" (JObj []) ;;
  d <- py_get author "date" JNull ;;
  date <- parse_date fromisoformat d ;;
  m <- py_get commit "message" (JStr "") ;;
  message <- get_first_line m ;;
  _ <- check_hashable repo ;;
  Ok (repo, Commit.mk date message).

(** The repository identifier of an issue or a pull request. *)
Definition repo_with_owner (item : json) : outcome json :=
  repository <- py_get item "repository" (JObj []) ;;
  repository' <- py_get item "repository" (JObj []) ;;
  name <- py_get repository' "name" (JStr "unknown") ;;
  py_get repository "nameWithOwner" name.

Definition issue_record (item : json) : outcome (json * Issue.t) :=
  repo <- repo_with_owner item ;;
  d <- py_get item "createdAt" JNull ;;
  date <- parse_date fromisoformat d ;;
  _ <- check_hashable repo ;;
  title <- py_get item "title" (JStr "") ;;
  s <- py_get item "state" (JStr "") ;;
  state <- py_lower s ;;
  url <- py_get item "url" (JStr "") ;;
  body <- py_get item "body" (JStr "") ;;
  Ok (repo, Issue.mk title state date url body).

Definition pr_record (item : json) : outcome (json * PR.t) :=
  repo <- repo_with_owner item ;;
  d <- py_get item "createdAt" JNull ;;
  date <- parse_date fromisoformat d ;;
  _ <- check_hashable repo ;;
  title <- py_get item "title" (JStr "") ;;
  s <- py_get item "state" (JStr "") ;;
  state <- py_lower s ;;
  url <- py_get item "url" (JStr "") ;;
  s' <- py_get item "state" (JStr "") ;;
  state' <- py_lower s' ;;
  body <- py_get item "body" (JStr "") ;;
  Ok (repo, PR.mk title state date url (state' =? "merged") body).
End Classifiers.

(** [for item in data: ... grouped[repo].append(record)] *)
Fixpoint loop {A} (record : json -> outcome (json * A))
    (g : grouped A) (data : list json) : outcome (grouped A) :=
  match data with
  | [] => Ok g
  | item :: rest =>
      kr <- record item ;;
      loop record (group_append g (fst kr) (snd kr)) rest
  end.

(** A classifier: the loop from the empty mapping, then the sort of every
    group. *)
Definition classify {A} (record : json -> outcome (json * A))
    (date : A -> option datetime) (data : list json) : outcome (grouped A) :=
  g <- loop record [] data ;; sort_groups date g.

Definition process_commits (fromisoformat : iso_parser) (data : list json)
  : outcome (grouped Commit.t) :=
  classify (commit_record fromisoformat) Commit.date data.

Definition process_issues (fromisoformat : iso_parser) (data : list json)
  : outcome (grouped Issue.t) :=
  classify (issue_record fromisoformat) Issue.date data.

Definition process_prs (fromisoformat : iso_parser) (data : list json)
  : outcome (grouped PR.t) :=
  classify (pr_record fromisoformat) PR.date data.

(** ** The renderer *)

(** [sorted(d.keys())]: [<] on two strs is lexicographic, on bools and ints
    numeric; anything else does not compare.  Stable insertion sort, as
    for [list.sort] above. *)
Definition key_lt (a b : json) : outcome bool :=
  match a, b with
  | JStr s, JStr t => Ok (str_ltb s t)
  | _, _ =>
      match as_int a, as_int b with
      | Some x, Some y => Ok (x <? y)%Z
      | _, _ => Raise TypeError
      end
  end.

Fixpoint insert_key (x : json) (l : list json) : outcome (list json) :=
  match l with
  | [] => Ok [x]
  | y :: l' =>
      lt <- key_lt y x ;;
      if lt then (r <- insert_key x l' ;; Ok (y :: r))
      else Ok (x :: l)
  end.

Fixpoint py_sorted (l : list json) : outcome (list json) :=
  match l with
  | [] => Ok []
  | x :: l' => s <- py_sorted l' ;; insert_key x s
  end.

(** [min(l)] and [max(l)] on a list of datetimes: the first smallest
    (largest) element, found by comparing each element with the best so
    far. *)
Fixpoint min_from (cur : datetime) (l : list datetime) : outcome datetime :=
  match l with
  | [] => Ok cur
  | x :: l' => lt <- dt_lt x cur ;; min_from (if lt then x else cur) l'
  end.

Fixpoint max_from (cur : datetime) (l : list datetime) : outcome datetime :=
  match l with
  | [] => Ok cur
  | x :: l' => gt <- dt_gt x cur ;; max_from (if gt then x else cur) l'
  end.

Definition py_min (l : list datetime) : outcome datetime :=
  match l with
  | [] => Raise ValueError
  | x :: l' => min_from x l'
  end.

Definition py_max (l : list datetime) : outcome datetime :=
  match l with
  | [] => Raise ValueError
  | x :: l' => max_from x l'
  end.

(** [[i['date'] for i in repo_items if i['date']]] over all the values of
    a mapping; a datetime object is always true. *)
Definition present_dates {A} (date : A -> option datetime) (g : grouped A)
  : list datetime :=
  flat_map (fun kv =>
    flat_map (fun i => match date i with Some d => [d] | None => [] end)
             (snd kv)) g.

(** [sum(len(items) for items in g.values())] *)
Definition total {A} (g : grouped A) : nat :=
  list_sum (map (fun kv => List.length (snd kv)) g).

Definition nl : string := String NL "".

Section Renderer.
(** [repr] of a list or a dict. *)
Variable py_repr : json -> string.

(** [str(v)], which is how an f-string prints a value. *)
Definition py_str (v : json) : string :=
  match v with
  | JStr s => s
  | JNull => "None"
  | JBool true => "True"
  | JBool false => "False"
  | JNum n => str_of_Z n
  | _ => py_repr v
  end.

Definition format_body (body : json) (indent : string)
  : outcome (list string) :=
  if negb (truthy body) then Ok []
  else match body with
       | JStr s =>
           if negb (truthy (JStr (strip s))) then Ok []
           else Ok (map (fun line => indent ++ "> " ++ line)
                        (split NL (strip s)))
       | _ => Raise AttributeError
       end.

(** [f" ({date_str})" if date_str else ""] *)
Definition date_part (d : option datetime) : string :=
  let date_str := format_date d in
  if truthy (JStr date_str) then " (" ++ date_str ++ ")" else "".

(** [f" [{item['state']}]" if item['state'] else ""] *)
Definition state_part (state : string) : string :=
  if truthy (JStr state) then " [" ++ state ++ "]" else "".

Definition commit_lines (item : Commit.t) : outcome (list string) :=
  Ok ["- " ++ Commit.message item ++ date_part (Commit.date item)].

Definition issue_created_lines (include_body : bool) (item : Issue.t)
  : outcome (list string) :=
  let line := "- " ++ py_str (Issue.title item)
              ++ date_part (Issue.date item)
              ++ state_part (Issue.state item) in
  if include_body
  then (b <- format_body (Issue.body item) "  " ;; Ok (line :: b))
  else Ok [line].

Definition issue_commented_lines (item : Issue.t) : outcome (list string) :=
  Ok ["- " ++ py_str (Issue.title item) ++ state_part (Issue.state item)].

(** The bracketed tag of a line of the PRs Created section. *)
Definition pr_tag (item : PR.t) : string :=
  if PR.merged item then " [merged]" else state_part (PR.state item).

Definition pr_created_lines (include_body : bool) (item : PR.t)
  : outcome (list string) :=
  let line := "- " ++ py_str (PR.title item)
              ++ date_part (PR.date item) ++ pr_tag item in
  if include_body
  then (b <- format_body (PR.body item) "  " ;; Ok (line :: b))
  else Ok [line].

Definition pr_reviewed_lines (item : PR.t) : outcome (list string) :=
  Ok ["- " ++ py_str (PR.title item) ++ state_part (PR.state item)].

(** The subsection of one repository. *)
Definition repo_block {A} (item_lines : A -> outcome (list string))
    (g : grouped A) (repo : json) : outcome (list string) :=
  ls <- mapM item_lines (group_lookup g repo) ;;
  Ok (("### " ++ py_str repo) :: app (List.concat ls) [""]).

(** The body of a section, below its heading: the five sections of
    [generate_markdown] are this loop with their own record lines. *)
Definition section_body {A} (item_lines : A -> outcome (list string))
    (g : grouped A) : outcome (list string) :=
  match g with
  | [] => Ok ["None"; ""]
  | _ =>
      keys <- py_sorted (map fst g) ;;
      blocks <- mapM (repo_block item_lines g) keys ;;
      Ok (List.concat blocks)
  end.

(** The text of a year under [strftime]'s [%Y]. *)
Variable strftime_Y : Z -> string.

Definition period_of (all_dates : list datetime) : outcome string :=
  match all_dates with
  | [] => Ok "unknown"
  | _ =>
      mn <- py_min all_dates ;;
      let min_date := strftime_Y_m_d strftime_Y mn in
      mx <- py_max all_dates ;;
      let max_date := strftime_Y_m_d strftime_Y mx in
      Ok (min_date ++ " to " ++ max_date)
  end.

Definition generate_markdown_lines
    (commits : grouped Commit.t)
    (issues_created issues_commented : grouped Issue.t)
    (prs_created prs_reviewed : grouped PR.t)
    (dir_name : string) (include_body : bool) : outcome (list string) :=
  let all_dates := app (present_dates Commit.date commits)
                       (present_dates Issue.date issues_created) in
  period <- period_of all_dates ;;
  let total_commits := total commits in
  let total_issues_created := total issues_created in
  let total_issues_commented := total issues_commented in
  let total_prs_created := total prs_created in
  let total_prs_reviewed := total prs_reviewed in
  let header :=
    [ "---";
      "period: " ++ period;
      "source: " ++ dir_name;
      "commits: " ++ str_of_nat total_commits;
      "issues_created: " ++ str_of_nat total_issues_created;
      "issues_commented: " ++ str_of_nat total_issues_commented;
      "prs_created: " ++ str_of_nat total_prs_created;
      "prs_reviewed: " ++ str_of_nat total_prs_reviewed;
      "---";
      "";
      "# Weekly GitHub Activity";
      "" ] in
  s1 <- section_body commit_lines commits ;;
  s2 <- section_body (issue_created_lines include_body) issues_created ;;
  s3 <- section_body issue_commented_lines issues_commented ;;
  s4 <- section_body (pr_created_lines include_body) prs_created ;;
  s5 <- section_body pr_reviewed_lines prs_reviewed ;;
  Ok (List.concat
        [ header;
          ["## Commits (" ++ str_of_nat total_commits ++ ")"; ""]; s1;
          ["## Issues Created (" ++ str_of_nat total_issues_created ++ ")";
           ""]; s2;
          ["## Issues Commented (" ++ str_of_nat total_issues_commented
           ++ ")"; ""]; s3;
          ["## PRs Created (" ++ str_of_nat total_prs_created ++ ")"; ""];
          s4;
          ["## PRs Reviewed (" ++ str_of_nat total_prs_reviewed ++ ")"; ""];
          s5 ]).

Definition generate_markdown
    (commits : grouped Commit.t)
    (issues_created issues_commented : grouped Issue.t)
    (prs_created prs_reviewed : grouped PR.t)
    (dir_name : string) (include_body : bool) : outcome string :=
  lines <- generate_markdown_lines commits issues_created issues_commented
             prs_created prs_reviewed dir_name include_body ;;
  Ok (join nl lines).
End Renderer.

(** ** The loader *)

(** What [open] and the read find at a path: no file, a file that cannot
    be read (the exception says why), or a text. *)
Inductive file_state : Type :=
| Absent
| Unreadable (e : exn)
| Holds (text : string).

Definition filesystem : Type := string -> file_state.

(** The result of the JSON decoder on a text: the value, or [None] when
    it raises JSONDecodeError.  The other ways in which the decoder can
    end, a RecursionError on a text nested too deeply, are left out. *)
Definition json_decoder : Type := string -> option json.

Definition open_read (fs : filesystem) (filepath : string) : outcome string :=
  match fs filepath with
  | Absent => Raise FileNotFoundError
  | Unreadable e => Raise e
  | Holds text => Ok text
  end.

Definition json_load (decode : json_decoder) (text : string) : outcome json :=
  match decode text with
  | Some v => Ok v
  | None => Raise JSONDecodeError
  end.

Definition load_json (decode : json_decoder) (fs : filesystem)
    (filepath : string) : outcome json :=
  match (text <- open_read fs filepath ;;
         data <- json_load decode text ;;
         Ok (if truthy data then data else JArr []))
  with
  | Raise FileNotFoundError => Ok (JArr [])
  | Raise JSONDecodeError => Ok (JArr [])
  | r => r
  end.

(** ** main, from the loads to the rendered document *)

Fixpoint chars (s : string) : list json :=
  match s with
  | "" => []
  | String c s' => JStr (String c "") :: chars s'
  end.

(** The items that [for item in data] visits. *)
Definition py_iter (data : json) : outcome (list json) :=
  match data with
  | JArr l => Ok l
  | JObj fields => Ok (map (fun kv => JStr (fst kv)) fields)
  | JStr s => Ok (chars s)
  | _ => Raise TypeError
  end.

Section Main.
Variable fromisoformat : iso_parser.
Variable py_repr : json -> string.
Variable strftime_Y : Z -> string.

(** The classifiers and the renderer on the five loaded collections. *)
Definition digest (commits_data issues_created_data issues_commented_data
                   prs_created_data prs_reviewed_data : json)
    (dir_name : string) (include_body : bool) : outcome string :=
  cd <- py_iter commits_data ;;
  commits <- process_commits fromisoformat cd ;;
  icd <- py_iter issues_created_data ;;
  issues_created <- process_issues fromisoformat icd ;;
  imd <- py_iter issues_commented_data ;;
  issues_commented <- process_issues fromisoformat imd ;;
  pcd <- py_iter prs_created_data ;;
  prs_created <- process_prs fromisoformat pcd ;;
  prd <- py_iter prs_reviewed_data ;;
  prs_reviewed <- process_prs fromisoformat prd ;;
  generate_markdown py_repr strftime_Y commits issues_created
    issues_commented prs_created prs_reviewed dir_name include_body.

Variable decode : json_decoder.

(** [main] once the directory is known to exist: the text it writes. *)
Definition main_markdown (fs : filesystem) (dir_path dir_name : string)
    (include_body : bool) : outcome string :=
  commits_data <- load_json decode fs (dir_path ++ "/commits.json") ;;
  issues_created_data <-
    load_json decode fs (dir_path ++ "/issues_created.json") ;;
  issues_commented_data <-
    load_json decode fs (dir_path ++ "/issues_commented.json") ;;
  prs_created_data <- load_json decode fs (dir_path ++ "/prs_created.json") ;;
  prs_reviewed_data <-
    load_json decode fs (dir_path ++ "/prs_reviewed.json") ;;
  digest commits_data issues_created_data issues_commented_data
    prs_created_data prs_reviewed_data dir_name include_body.
End Main.

(** ** A reader for the date forms of the exports

    [iso_basic] reads [YYYY-MM-DD], [YYYY-MM-DDTHH:MM:SS] and the latter
    followed by [+HH:MM] or [-HH:MM], as every version of
    [datetime.fromisoformat] does.  It stands for the library in the
    examples on concrete inputs; the general theorems hold for any
    [iso_parser]. *)

Definition obind {A B} (m : option A) (k : A -> option B) : option B :=
  match m with
  | Some a => k a
  | None => None
  end.

Notation "x <-? m ;; k" := (obind m (fun x => k))
  (at level 61, m at next level, right associativity).

Definition digit (c : ascii) : option Z :=
  let n := cp c in
  if ((48 <=? n) && (n <=? 57))%N then Some (Z.of_N n - 48)%Z else None.

Fixpoint read_digits (k : nat) (acc : Z) (s : string) : option (Z * string) :=
  match k with
  | O => Some (acc, s)
  | S k' =>
      match s with
      | "" => None
      | String c s' =>
          d <-? digit c ;; read_digits k' (acc * 10 + d)%Z s'
      end
  end.

Definition expect (c : ascii) (s : string) : option string :=
  match s with
  | "" => None
  | String d s' => if Ascii.eqb c d then Some s' else None
  end.

Definition read_offset (s : string) : option (option Z) :=
  match s with
  | "" => Some None
  | String c s' =>
      sign <-? (if Ascii.eqb c "+" then Some 1%Z
                else if Ascii.eqb c "-" then Some (-1)%Z else None) ;;
      hs <-? read_digits 2 0 s' ;;
      s1 <-? expect ":" (snd hs) ;;
      ms <-? read_digits 2 0 s1 ;;
      if ((snd ms =? "") && (fst hs <? 24)%Z && (fst ms <? 60)%Z)%bool
      then Some (Some (sign * ((fst hs * 60 + fst ms) * 60 * 1000000))%Z)
      else None
  end.

Definition iso_basic : iso_parser := fun s =>
  ys <-? read_digits 4 0 s ;;
  s1 <-? expect "-" (snd ys) ;;
  ms <-? read_digits 2 0 s1 ;;
  s2 <-? expect "-" (snd ms) ;;
  ds <-? read_digits 2 0 s2 ;;
  let y := fst ys in
  let m := fst ms in
  let d := fst ds in
  if ((1 <=? y) && (1 <=? m) && (m <=? 12) && (1 <=? d)
      && (d <=? days_in_month y m))%Z
  then match snd ds with
       | "" => Some (mkdt y m d 0 0 0 0 None)
       | String c rest =>
           if Ascii.eqb c "T" then
             hs <-? read_digits 2 0 rest ;;
             s3 <-? expect ":" (snd hs) ;;
             mins <-? read_digits 2 0 s3 ;;
             s4 <-? expect ":" (snd mins) ;;
             secs <-? read_digits 2 0 s4 ;;
             off <-? read_offset (snd secs) ;;
             if ((fst hs <? 24) && (fst mins <? 60) && (fst secs <? 60))%Z
             then Some (mkdt y m d (fst hs) (fst mins) (fst secs) 0 off)
             else None
           else None
       end
  else None.

(** A [repr] for the examples whose inputs print no container. *)
Definition no_repr : json -> string := fun _ => "".


(** ** Vocabulary of the statements *)

(** [x] stands before [y] in [l]. *)
Definition before {A} (x y : A) (l : list A) : Prop :=
  exists l1 l2 l3, l = app l1 (x :: app l2 (y :: l3)).

(** The keys of two records are in descending order: the first is not
    earlier than the second. *)
Definition not_earlier (a b : datetime) : Prop := dt_lt a b = Ok false.

Fixpoint all_space (s : string) : bool :=
  match s with
  | "" => true
  | String c s' => is_space c && all_space s'
  end.

Fixpoint last_char (s : string) : option ascii :=
  match s with
  | "" => None
  | String c "" => Some c
  | String _ s' => last_char s'
  end.

Definition first_char (s : string) : option ascii :=
  match s with
  | "" => None
  | String c _ => Some c
  end.

(** No whitespace at either end. *)
Definition trimmed (s : string) : Prop :=
  (forall c, first_char s = Some c -> is_space c = false) /\
  (forall c, last_char s = Some c -> is_space c = false).




(** Two raw items that differ at most in the value of their [url] key. *)
Definition same_field (f f' : string * json) : Prop :=
  fst f = fst f' /\ (fst f <> "url" -> snd f = snd f').

Inductive same_but_url : json -> json -> Prop :=
| sbu_same : forall v, same_but_url v v
| sbu_obj : forall fields fields',
    Forall2 same_field fields fields' ->
    same_but_url (JObj fields) (JObj fields').

(** Two loaded collections that differ at most in the [url] values of
    their items. *)
Inductive same_data_but_url : json -> json -> Prop :=
| sdu_same : forall v, same_data_but_url v v
| sdu_arr : forall l l',
    Forall2 same_but_url l l' ->
    same_data_but_url (JArr l) (JArr l').

(** Two outcomes that are the same exception, or values in relation. *)
Definition orel {A} (R : A -> A -> Prop) (x y : outcome A) : Prop :=
  match x, y with
  | Ok a, Ok b => R a b
  | Raise e, Raise e' => e = e'
  | _, _ => False
  end.

(** Two mappings with the same keys in the same order and related
    records. *)
Definition grel {A} (R : A -> A -> Prop) (g g' : grouped A) : Prop :=
  Forall2 (fun kv kv' => fst kv = fst kv' /\ Forall2 R (snd kv) (snd kv')) g g'.

Definition issue_same_but_url (r r' : Issue.t) : Prop :=
  Issue.title r = Issue.title r' /\ Issue.state r = Issue.state r' /\
  Issue.date r = Issue.date r' /\ Issue.body r = Issue.body r'.

Definition pr_same_but_url (r r' : PR.t) : Prop :=
  PR.title r = PR.title r' /\ PR.state r = PR.state r' /\
  PR.date r = PR.date r' /\ PR.merged r = PR.merged r' /\
  PR.body r = PR.body r'.

(** The raw items of the examples. *)
Definition commit_item (repo : string) (date : option string) : json :=
  JObj [ ("repository", JObj [("name", JStr repo)]);
         ("commit",
          JObj [ ("message", JStr "Fix bug");
                 ("author",
                  JObj (match date with
                        | Some d => [("date", JStr d)]
                        | None => []
                        end)) ]) ].




Definition issue_item (repo : string) (created : option string) : json :=
  JObj (app [ ("repository", JObj [("nameWithOwner", JStr repo)]);
              ("title", JStr "Bug");
              ("state", JStr "OPEN") ]
            (match created with
             | Some d => [("createdAt", JStr d)]
             | None => []
             end)).


(** [s <= t] for two strs: [t < s] is false. *)
Definition str_le (s t : string) : Prop := str_ltb t s = false.

(** [s.startswith(p)] *)
Fixpoint starts_with (p s : string) : bool :=
  match p, s with
  | "", _ => true
  | String _ _, "" => false
  | String a p', String b s' => Ascii.eqb a b && starts_with p' s'
  end.

(** The subsection headings among the lines of a section. *)
Definition headings (ls : list string) : list string :=
  filter (starts_with "### ") ls.

(** A renderer of record lines that writes no heading. *)
Definition plain_lines {A} (item_lines : A -> outcome (list string)) : Prop :=
  forall r ls, item_lines r = Ok ls ->
               Forall (fun l => starts_with "### " l = false) ls.

(** The repository order of a section: for a mapping whose identifiers
    are the strings [names], the headings of the section are these names
    in lexicographic order, whatever the order of insertion was. *)
Definition repo_order_law_for {A} (py_repr : json -> string)
    (item_lines : A -> outcome (list string)) : Prop :=
  forall (g : grouped A) (names : list string) (ls : list string),
    map fst g = map JStr names ->
    section_body py_repr item_lines g = Ok ls ->
    exists sorted,
      Permutation names sorted /\
      StronglySorted str_le sorted /\
      headings ls = map (fun name => "### " ++ name) sorted /\
      (forall (g' : grouped A) (names' : list string) (ls' : list string),
         map fst g' = map JStr names' ->
         Permutation names names' ->
         section_body py_repr item_lines g' = Ok ls' ->
         headings ls' = map (fun name => "### " ++ name) sorted).

(** A classifier whose repository identifiers do not depend, as a set, on
    the order of the raw items. *)
Definition keys_permuted {A} (process : list json -> outcome (grouped A))
  : Prop :=
  forall (data data' : list json) (g g' : grouped A) (names : list string),
    Permutation data data' ->
    process data = Ok g -> process data' = Ok g' ->
    map fst g = map JStr names ->
    exists names', map fst g' = map JStr names' /\ Permutation names names'.

(** The keys of a mapping after an append under the key [k]. *)
Fixpoint add_key (ks : list json) (k : json) : list json :=
  match ks with
  | [] => [k]
  | k0 :: ks' => if key_eqb k0 k then ks else k0 :: add_key ks' k
  end.

Definition is_str (v : json) : Prop := exists s, v = JStr s.

(** A key and a record in relation. *)
Definition keyed {A} (R : A -> A -> Prop) (kr kr' : json * A) : Prop :=
  fst kr = fst kr' /\ R (snd kr) (snd kr').

(** ** main *)

(** What a run of [main] leaves behind: its exit status, the file it
    wrote (path and text) if any, and the line it printed. *)
Record run : Type := mk_run {
  exit_code : Z;
  written : option (string * string);
  printed : string
}.

Section MainProgram.
Variable fromisoformat : iso_parser.
Variable py_repr : json -> string.
Variable strftime_Y : Z -> string.
Variable decode : json_decoder.
(** [str(Path(p))], the path as pathlib writes it: [.] for the empty
    text, and a text without a trailing or a doubled separator. *)
Variable path_str : string -> string.
(** [Path(p).name], the last component of a path. *)
Variable path_name : string -> string.
(** [str(Path(p) / name)] *)
Variable path_join : string -> string -> string.

(** [main], after the arguments are parsed.  A path stands as the text
    that pathlib writes for it.  [is_dir] tells which paths are
    directories, [fs] is what [open] finds at a path, [write_text] is the
    exception that [Path.write_text] raises when it writes a text at a
    path, if any, and [output] is the value of [-o] when it is given. *)
Definition main (is_dir : string -> bool) (fs : filesystem)
    (write_text : string -> string -> option exn)
    (directory : string) (output : option string) (include_body : bool)
  : outcome run :=
  let dir_path := path_str directory in
  if negb (is_dir dir_path)
  then Ok (mk_run 1 None ("Error: " ++ directory ++ " is not a directory"))
  else
    markdown <- main_markdown fromisoformat py_repr strftime_Y decode fs
                  dir_path (path_name dir_path) include_body ;;
    let output_path :=
      match output with
      | Some o => if truthy (JStr o) then path_str o
                  else path_join dir_path "summary.md"
      | None => path_join dir_path "summary.md"
      end in
    match write_text output_path markdown with
    | Some e => Raise e
    | None =>
        Ok (mk_run 0 (Some (output_path, markdown))
              ("Generated: " ++ output_path))
    end.
End MainProgram.

(** ** Vocabulary of the further statements *)

(** Two sort keys that compare as equal: neither is earlier. *)
Definition same_instant (a b : datetime) : bool :=
  match dt_lt a b, dt_lt b a with
  | Ok false, Ok false => true
  | _, _ => false
  end.

(** The records of a mapping, group after group. *)
Definition all_records {A} (g : grouped A) : list A :=
  flat_map snd g.

(** [s.endswith("\n")] *)
Definition ends_with_newline (s : string) : bool :=
  match last_char s with
  | Some c => Ascii.eqb c NL
  | None => false
  end.

(** A classifier files every raw item once: the records of the mapping
    it returns are, up to their order, the records of the items, and
    there are as many of them as items. *)
Definition files_every_item {A} (record : json -> outcome (json * A))
    (process : list json -> outcome (grouped A)) : Prop :=
  forall data g, process data = Ok g ->
    exists recs,
      mapM record data = Ok recs /\
      Permutation (all_records g) (map snd recs) /\
      total g = List.length data.

(** The shape of a mapping that a classifier returns: no two keys are
    equal, no group is empty, and every record stands under the
    identifier of the item it comes from (or under the equal key that
    was inserted first). *)
Definition well_grouped {A} (record : json -> outcome (json * A))
    (process : list json -> outcome (grouped A)) : Prop :=
  forall data g, process data = Ok g ->
    ForallOrdPairs (fun a b => key_eqb a b = false) (map fst g) /\
    Forall (fun kv => snd kv <> []) g /\
    (forall k rs r, In (k, rs) g -> In r rs ->
       exists item k', In item data /\ record item = Ok (k', r) /\
                       (k = k' \/ key_eqb k k' = true)).

(** The records of [r] that share an instant stand in the order they have
    in [l]. *)
Definition same_order_of_ties {A} (date : A -> option datetime)
    (l r : list A) : Prop :=
  forall d,
    filter (fun x => same_instant d (sort_key (date x))) r
    = filter (fun x => same_instant d (sort_key (date x))) l.

(** The sort of a classifier is stable: each group it returns is the
    group that the loop built, with the records of equal dates in the
    order of their appends. *)
Definition sorts_stably {A} (record : json -> outcome (json * A))
    (date : A -> option datetime)
    (process : list json -> outcome (grouped A)) : Prop :=
  forall data g, process data = Ok g ->
    exists g0,
      loop record [] data = Ok g0 /\
      Forall2 (fun kv kv' => fst kv = fst kv' /\
                             Permutation (snd kv) (snd kv') /\
                             same_order_of_ties date (snd kv) (snd kv'))
              g0 g.

(** The sort keys of a record are all of one kind: offset-aware when
    [aware] is true, naive (or the default of a missing date) when not. *)
Definition key_kind {A} (date : A -> option datetime) (aware : bool) (r : A)
  : Prop :=
  if aware then utcoffset (sort_key (date r)) <> None
  else utcoffset (sort_key (date r)) = None.

(** A classifier returns a mapping when every item gives a record and
    the dates are all of one kind. *)
Definition returns_on_one_kind {A} (record : json -> outcome (json * A))
    (date : A -> option datetime)
    (process : list json -> outcome (grouped A)) : Prop :=
  forall data aware,
    (forall item, In item data ->
       exists k r, record item = Ok (k, r) /\ key_kind date aware r) ->
    exists g, process data = Ok g.

(** A classifier raises TypeError when every item gives a record and two
    items of one repository are one without a date and one with an
    offset-aware date. *)
Definition raises_on_undated_with_aware {A}
    (record : json -> outcome (json * A)) (date : A -> option datetime)
    (process : list json -> outcome (grouped A)) : Prop :=
  forall data item1 item2 repo r1 r2 d off,
    (forall item, In item data -> exists kr, record item = Ok kr) ->
    In item1 data -> In item2 data ->
    record item1 = Ok (JStr repo, r1) -> record item2 = Ok (JStr repo, r2) ->
    date r1 = None -> date r2 = Some d -> utcoffset d = Some off ->
    process data = Raise TypeError.

Definition is_object (v : json) : bool :=
  match v with
  | JObj _ => true
  | _ => false
  end.

(** A classifier raises AttributeError at the first raw item that is not
    an object, when the items before it give records. *)
Definition raises_on_non_object {A} (record : json -> outcome (json * A))
    (process : list json -> outcome (grouped A)) : Prop :=
  forall before item after,
    (forall i, In i before -> exists kr, record i = Ok kr) ->
    is_object item = false ->
    process (app before (item :: after)) = Raise AttributeError.

(** What the renderer shows of a record.  In the Issues Created and PRs
    Created sections: the title, the date, the state (and the merged
    flag), and the body only when body inclusion is enabled.  In the
    Issues Commented and PRs Reviewed sections: the title and the
    state. *)
Definition issue_shown (include_body : bool) (r r' : Issue.t) : Prop :=
  Issue.title r = Issue.title r' /\ Issue.state r = Issue.state r' /\
  Issue.date r = Issue.date r' /\
  (include_body = true -> Issue.body r = Issue.body r').

Definition issue_listed (r r' : Issue.t) : Prop :=
  Issue.title r = Issue.title r' /\ Issue.state r = Issue.state r'.

Definition pr_shown (include_body : bool) (r r' : PR.t) : Prop :=
  PR.title r = PR.title r' /\ PR.state r = PR.state r' /\
  PR.date r = PR.date r' /\ PR.merged r = PR.merged r' /\
  (include_body = true -> PR.body r = PR.body r').

Definition pr_listed (r r' : PR.t) : Prop :=
  PR.title r = PR.title r' /\ PR.state r = PR.state r'.



(** * Properties *)

(** ** The error monad *)

Lemma bind_Ok_inv {A B} (m : outcome A) (k : A -> outcome B) (b : B) :
  bind m k = Ok b -> exists a, m = Ok a /\ k a = Ok b.
Proof.
  destruct m as [a|e]; simpl; intro H; [eauto | discriminate].
Qed.

Ltac inv_bind H :=
  let a := fresh "v" in
  let Ha := fresh "E" in
  apply bind_Ok_inv in H; destruct H as (a & Ha & H).

Lemma mapM_Ok_Forall2 {A B} (f : A -> outcome B) (l : list A) (r : list B) :
  mapM f l = Ok r -> Forall2 (fun a b => f a = Ok b) l r.
Proof.
  revert r; induction l as [|a l IH]; simpl; intros r H.
  - injection H as <-. constructor.
  - inv_bind H. inv_bind H. injection H as <-. constructor; auto.
Qed.

(** ** Strings *)

Lemma ascii_eqb_sym (a b : ascii) : Ascii.eqb a b = Ascii.eqb b a.
Proof.
  destruct (Ascii.eqb_spec a b) as [->|N].
  - symmetry. apply Ascii.eqb_refl.
  - symmetry. apply Ascii.eqb_neq. congruence.
Qed.

Lemma split_nonempty (sep : ascii) (s : string) : split sep s <> [].
Proof.
  destruct s as [|c s]; simpl; [discriminate|].
  destruct (Ascii.eqb c sep); [discriminate|].
  destruct (split sep s); discriminate.
Qed.

(** The first element of the split is the text up to its first newline. *)
Lemma first_line_spec (text : string) :
  contains NL (first_line text) = false /\
  (text = first_line text \/
   exists rest, text = first_line text ++ String NL rest).
Proof.
  unfold first_line.
  induction text as [|c s [IH1 IH2]].
  - simpl. auto.
  - change (split NL (String c s))
      with (if Ascii.eqb c NL then "" :: split NL s
            else match split NL s with
                 | [] => [String c ""]
                 | w :: ws => String c w :: ws
                 end).
    destruct (Ascii.eqb_spec c NL) as [->|N].
    + split; [reflexivity|]. right. exists s. reflexivity.
    + pose proof (split_nonempty NL s) as NE.
      destruct (split NL s) as [|w ws]; [congruence|].
      change (hd "" (String c w :: ws)) with (String c w).
      change (hd "" (w :: ws)) with w in IH1, IH2.
      change (contains NL (String c w))
        with (Ascii.eqb NL c || contains NL w).
      rewrite ascii_eqb_sym.
      replace (Ascii.eqb c NL) with false
        by (symmetry; apply Ascii.eqb_neq; exact N).
      split; [exact IH1|].
      destruct IH2 as [E|[rest E]].
      * left. congruence.
      * right. exists rest. rewrite E at 1. reflexivity.
Qed.

Lemma lstrip_spec (s : string) :
  exists l, s = l ++ lstrip s /\ all_space l = true /\
            (forall c, first_char (lstrip s) = Some c -> is_space c = false).
Proof.
  induction s as [|c s (l & E & Hl & Hc)]; simpl.
  - exists "". repeat split; auto. discriminate.
  - destruct (is_space c) eqn:Sc.
    + exists (String c l). simpl. rewrite Sc, Hl. repeat split; auto.
      congruence.
    + exists "". simpl. repeat split; auto. intros c' [= <-]. exact Sc.
Qed.

Lemma rstrip_spec (s : string) :
  exists r, s = rstrip s ++ r /\ all_space r = true /\
            (forall c, last_char (rstrip s) = Some c -> is_space c = false) /\
            (rstrip s <> "" -> first_char (rstrip s) = first_char s).
Proof.
  induction s as [|c s (r & E & Hr & Hc & Hf)]; simpl.
  - exists "". repeat split; auto. discriminate.
  - destruct (rstrip s) as [|d t] eqn:R.
    + simpl in E. subst r. destruct (is_space c) eqn:Sc.
      * exists (String c s). simpl. rewrite Sc, Hr.
        repeat split; auto; try discriminate. congruence.
      * exists s. simpl. repeat split; auto. intros c' [= <-]. exact Sc.
    + exists r. rewrite E at 1. simpl. repeat split; auto.
Qed.

(** [strip] removes a run of whitespace at each end and nothing else. *)
Lemma strip_spec (s : string) :
  exists l r, s = l ++ strip s ++ r /\ all_space l = true /\
              all_space r = true /\ trimmed (strip s).
Proof.
  unfold strip.
  destruct (lstrip_spec s) as (l & E & Hl & Hc).
  destruct (rstrip_spec (lstrip s)) as (r & E' & Hr & Hc' & Hf).
  exists l, r. repeat split; auto.
  - rewrite <- E'. exact E.
  - intros c Fc. apply Hc. rewrite <- Hf; [exact Fc|].
    intro Z. rewrite Z in Fc. discriminate.
Qed.

Lemma length_append (s t : string) :
  String.length (s ++ t) = String.length s + String.length t.
Proof. induction s; simpl; auto. Qed.

Lemma length_substring_0 (n : nat) (s : string) :
  n <= String.length s -> String.length (substring 0 n s) = n.
Proof.
  revert s; induction n as [|n IH]; intros [|c s]; simpl; intros H;
    try reflexivity; try lia.
  rewrite IH; auto. lia.
Qed.

(** The substring from 0 is a prefix. *)
Lemma substring_0_prefix (n : nat) (s : string) :
  exists rest, s = substring 0 n s ++ rest.
Proof.
  revert s; induction n as [|n IH]; intros [|c s]; simpl.
  - exists "". reflexivity.
  - exists (String c s). reflexivity.
  - exists "". reflexivity.
  - destruct (IH s) as [rest E]. exists rest. congruence.
Qed.

(** ** C3: the first line of a commit message *)

(** C3.  For every commit message [text], [get_first_line] returns the
    first line of [text] (the text before its first newline) without the
    whitespace around it; when that trimmed line has more than 80
    characters the result is its first 77 characters followed by three
    dots, 80 characters in all, and otherwise the trimmed line itself. *)
Theorem get_first_line_law (text : string) :
  exists fl line,
    (* [fl] is the first line of the text *)
    (contains NL fl = false /\
     (text = fl \/ exists rest, text = fl ++ String NL rest)) /\
    (* [line] is [fl] without the whitespace around it *)
    (exists l r, fl = l ++ line ++ r /\ all_space l = true /\
                 all_space r = true /\ trimmed line) /\
    (* the truncation *)
    (80 < String.length line ->
     exists head tail,
       get_first_line (JStr text) = Ok (head ++ "...") /\
       line = head ++ tail /\ String.length head = 77 /\
       String.length (head ++ "...") = 80) /\
    (String.length line <= 80 -> get_first_line (JStr text) = Ok line).
Proof.
  exists (first_line text), (strip (first_line text)).
  split; [apply first_line_spec|].
  split; [apply strip_spec|].
  assert (Empty : text = "" -> strip (first_line text) = "")
    by (intros ->; reflexivity).
  unfold get_first_line. simpl truthy.
  destruct (String.eqb_spec text "") as [E|NE]; simpl.
  - rewrite (Empty E). simpl. split; [intro; lia|reflexivity].
  - split.
    + intro L. apply Nat.ltb_lt in L as L'. rewrite L'.
      destruct (substring_0_prefix 77 (strip (first_line text))) as [tl E].
      exists (substring 0 77 (strip (first_line text))), tl.
      assert (String.length (substring 0 77 (strip (first_line text))) = 77)
        by (apply length_substring_0; lia).
      repeat split; auto. rewrite length_append. simpl. lia.
    + intro L. apply Nat.ltb_ge in L. rewrite L. reflexivity.
Qed.

(** ** Comparison of datetimes *)

Lemma not_earlier_refl (a : datetime) : not_earlier a a.
Proof.
  unfold not_earlier, dt_lt. destruct (utcoffset a); f_equal; apply Z.ltb_irrefl.
Qed.

Lemma not_earlier_trans (a b c : datetime) :
  not_earlier a b -> not_earlier b c -> not_earlier a c.
Proof.
  unfold not_earlier, dt_lt.
  destruct (utcoffset a), (utcoffset b), (utcoffset c); try discriminate;
    intros [= H1] [= H2]; f_equal;
    apply Z.ltb_ge; apply Z.ltb_ge in H1, H2; lia.
Qed.

Lemma dt_lt_true_flip (a b : datetime) :
  dt_lt a b = Ok true -> not_earlier b a.
Proof.
  unfold not_earlier, dt_lt.
  destruct (utcoffset a), (utcoffset b); try discriminate;
    intros [= H]; f_equal; apply Z.ltb_ge; apply Z.ltb_lt in H; lia.
Qed.

Lemma dt_lt_true_left (a b c : datetime) :
  dt_lt a b = Ok true -> not_earlier c b -> dt_lt a c = Ok true.
Proof.
  unfold not_earlier, dt_lt.
  destruct (utcoffset a), (utcoffset b), (utcoffset c); try discriminate;
    intros [= H1] [= H2]; f_equal;
    apply Z.ltb_lt; apply Z.ltb_lt in H1; apply Z.ltb_ge in H2; lia.
Qed.

(** ** Lists *)

Lemma before_cons {A} (x y z : A) (l : list A) :
  before x y l -> before x y (z :: l).
Proof.
  intros (l1 & l2 & l3 & ->). exists (z :: l1), l2, l3. reflexivity.
Qed.

Lemma before_head {A} (x y : A) (l : list A) : In y l -> before x y (x :: l).
Proof.
  intro H. apply in_split in H as (l2 & l3 & ->).
  exists [], l2, l3. reflexivity.
Qed.

Lemma before_inv {A} (x y z : A) (l : list A) :
  before x y (z :: l) -> (x = z /\ In y l) \/ before x y l.
Proof.
  intros ([|a l1] & l2 & l3 & E); simpl in E; injection E as -> ->.
  - left. split; auto. apply in_or_app. right. left. reflexivity.
  - right. exists l1, l2, l3. reflexivity.
Qed.

Lemma before_total {A} (x y : A) (l : list A) :
  In x l -> In y l -> x <> y -> before x y l \/ before y x l.
Proof.
  induction l as [|z l IH]; simpl; [tauto|].
  intros [->|Hx] [->|Hy] N.
  - congruence.
  - left. apply before_head. exact Hy.
  - right. apply before_head. exact Hx.
  - destruct (IH Hx Hy N); [left|right]; apply before_cons; assumption.
Qed.

Lemma StronglySorted_before {A} (R : A -> A -> Prop) (l : list A) :
  StronglySorted R l -> forall x y, before x y l -> R x y.
Proof.
  induction 1 as [|z l S IH F]; intros x y B.
  - destruct B as ([|? ?] & ? & ? & E); discriminate.
  - apply before_inv in B as [[-> Hy]|B].
    + rewrite Forall_forall in F. apply F. exact Hy.
    + apply IH. exact B.
Qed.

(** ** The sort of a group *)

Section SortByDate.
Variable A : Type.
Variable date : A -> option datetime.

Let key (x : A) : datetime := sort_key (date x).
Let desc (x y : A) : Prop := not_earlier (key x) (key y).

Lemma insert_desc_perm (x : A) (l r : list A) :
  insert_desc date x l = Ok r -> Permutation (x :: l) r.
Proof.
  revert r; induction l as [|y l IH]; simpl; intros r H.
  - injection H as <-. apply Permutation_refl.
  - inv_bind H. destruct v.
    + inv_bind H. injection H as <-.
      apply perm_trans with (y :: x :: l); [apply perm_swap|].
      apply perm_skip. apply IH. assumption.
    + injection H as <-. apply Permutation_refl.
Qed.

Lemma insert_desc_sorted (x : A) (l r : list A) :
  StronglySorted desc l -> insert_desc date x l = Ok r ->
  StronglySorted desc r.
Proof.
  intros S. revert r. induction S as [|y l S IH F]; simpl; intros r H.
  - injection H as <-. repeat constructor.
  - inv_bind H. destruct v.
    + inv_bind H. injection H as <-. constructor.
      * apply IH. assumption.
      * apply insert_desc_perm in E0.
        apply (Permutation_Forall E0). constructor; [|exact F].
        apply dt_lt_true_flip. exact E.
    + injection H as <-. constructor; [constructor; assumption|].
      constructor; [exact E|].
      rewrite Forall_forall in F |- *. intros z Hz.
      apply not_earlier_trans with (key y); [exact E|]. apply F, Hz.
Qed.

Lemma sort_by_date_desc_perm (l r : list A) :
  sort_by_date_desc date l = Ok r -> Permutation l r.
Proof.
  revert r; induction l as [|x l IH]; simpl; intros r H.
  - injection H as <-. constructor.
  - inv_bind H. apply insert_desc_perm in H.
    apply perm_trans with (x :: v); [|exact H].
    apply perm_skip, IH. assumption.
Qed.

Lemma sort_by_date_desc_sorted (l r : list A) :
  sort_by_date_desc date l = Ok r -> StronglySorted desc r.
Proof.
  revert r; induction l as [|x l IH]; simpl; intros r H.
  - injection H as <-. constructor.
  - inv_bind H. eapply insert_desc_sorted; [|exact H]. apply IH. assumption.
Qed.

(** The sort returns whenever the keys compare with one another: when
    all of them are naive, or all of them are offset-aware. *)
Lemma insert_desc_total (aware : bool) (x : A) (l : list A) :
  (forall y, In y (x :: l) ->
     if aware then utcoffset (key y) <> None else utcoffset (key y) = None) ->
  exists r, insert_desc date x l = Ok r.
Proof.
  induction l as [|y l IH]; simpl; intro H; [eauto|].
  assert (Hx := H x (or_introl eq_refl)).
  assert (Hy := H y (or_intror (or_introl eq_refl))).
  destruct IH as [r Er]; [intros z [<-|Hz]; apply H; simpl; auto|].
  unfold key in Hx, Hy. unfold dt_lt.
  destruct aware.
  - destruct (utcoffset (sort_key (date x))), (utcoffset (sort_key (date y)));
      try congruence.
    simpl. destruct (_ <? _)%Z; [rewrite Er; simpl|]; eauto.
  - rewrite Hx, Hy. simpl. destruct (_ <? _)%Z; [rewrite Er; simpl|]; eauto.
Qed.

Lemma sort_by_date_desc_total (aware : bool) (l : list A) :
  (forall y, In y l ->
     if aware then utcoffset (key y) <> None else utcoffset (key y) = None) ->
  exists r, sort_by_date_desc date l = Ok r.
Proof.
  induction l as [|x l IH]; simpl; intro H; [eauto|].
  destruct IH as [s Es]; [intros y Hy; apply H; auto|].
  rewrite Es. simpl. apply (insert_desc_total aware).
  intros y [<-|Hy]; [apply H; auto|].
  apply H. right. apply sort_by_date_desc_perm in Es.
  eapply Permutation_in; [apply Permutation_sym, Es | exact Hy].
Qed.

(** And it raises when a record without a date, whose key is the naive
    [datetime.min], meets a record with an offset-aware date. *)
Lemma sort_absent_with_aware (x y : A) (d : datetime) (off : Z) :
  date x = None -> date y = Some d -> utcoffset d = Some off ->
  sort_by_date_desc date [x; y] = Raise TypeError /\
  sort_by_date_desc date [y; x] = Raise TypeError.
Proof.
  intros Ex Ey Ed. simpl. unfold dt_lt. rewrite Ex, Ey. simpl.
  rewrite Ed. split; reflexivity.
Qed.


Lemma sort_groups_spec (g g' : grouped A) :
  sort_groups date g = Ok g' ->
  Forall2 (fun kv kv' =>
             fst kv = fst kv' /\ Permutation (snd kv) (snd kv') /\
             StronglySorted desc (snd kv')) g g'.
Proof.
  intro H. apply mapM_Ok_Forall2 in H.
  induction H as [|kv kv' g g' H F IH]; constructor; auto.
  inv_bind H. injection H as <-. simpl. split; [reflexivity|].
  split; [apply sort_by_date_desc_perm
         | apply sort_by_date_desc_sorted with (l := snd kv)];
    exact E.
Qed.


End SortByDate.

(** ** C2: the order inside a repository group *)


(** ** C1: the classifiers on partial items *)

(** C1 (refuted by the code).  Two commits of one repository, one dated
    as GitHub dates are (with the [Z] suffix) and one without a date:
    the sort compares the offset-aware date with the naive
    [datetime.min] and [process_commits] raises TypeError.  The same
    holds for issues and pull requests, and a [repository] that is null
    makes a classifier raise AttributeError. *)
Theorem classifier_raises_on_partial_items :
  process_commits iso_basic
    [commit_item "r" (Some "2025-11-20T10:00:00Z"); commit_item "r" None]
  = Raise TypeError /\
  process_issues iso_basic
    [issue_item "o/r" (Some "2025-11-20T10:00:00Z"); issue_item "o/r" None]
  = Raise TypeError /\
  process_prs iso_basic
    [issue_item "o/r" (Some "2025-11-20T10:00:00Z"); issue_item "o/r" None]
  = Raise TypeError /\
  (forall fromisoformat,
     process_issues fromisoformat [JObj [("repository", JNull)]]
     = Raise AttributeError).
Proof.
  repeat split; vm_compute; reflexivity.
Qed.

(** ** Where the records of a group come from *)

Lemma group_append_In {A} (g : grouped A) (repo k : json) (r x : A)
    (rs : list A) :
  In (k, rs) (group_append g repo r) -> In x rs ->
  (exists rs0, In (k, rs0) g /\ In x rs0) \/ x = r.
Proof.
  induction g as [|[k0 rs0] g IH]; simpl.
  - intros [[= <- <-]|[]] [<-|[]]. right. reflexivity.
  - destruct (key_eqb k0 repo); simpl.
    + intros [[= <- <-]|Hin] Hx.
      * apply in_app_or in Hx as [Hx|[<-|[]]]; [left|right; reflexivity].
        exists rs0. auto.
      * left. exists rs. auto.
    + intros [[= <- <-]|Hin] Hx.
      * left. exists rs0. auto.
      * destruct (IH Hin Hx) as [(rs1 & H1 & H2)|Er]; [left|right; auto].
        exists rs1. auto.
Qed.

Lemma loop_records {A} (record : json -> outcome (json * A))
    (data : list json) :
  forall g g', loop record g data = Ok g' ->
  forall k rs x, In (k, rs) g' -> In x rs ->
    (exists rs0, In (k, rs0) g /\ In x rs0) \/
    (exists item k', In item data /\ record item = Ok (k', x)).
Proof.
  induction data as [|item data IH]; simpl; intros g g' H k rs x Hin Hx.
  - injection H as <-. left. exists rs. auto.
  - inv_bind H. destruct v as [k' r]. simpl in H.
    destruct (IH _ _ H _ _ _ Hin Hx) as [(rs0 & H0 & Hx0)|(it & k2 & Hi & E2)].
    + destruct (group_append_In _ _ _ _ _ _ H0 Hx0) as [Hl | Er]; [left; assumption|subst x].
      right. exists item, k'. auto.
    + right. exists it, k2. auto.
Qed.

(** Every record of a group that a classifier returns is the normalized
    record of one of the raw items. *)
Lemma classify_records {A} (record : json -> outcome (json * A))
    (date : A -> option datetime) (data : list json) (g : grouped A) :
  classify record date data = Ok g ->
  forall k rs x, In (k, rs) g -> In x rs ->
    exists item k', In item data /\ record item = Ok (k', x).
Proof.
  unfold classify. intros H k rs x Hin Hx. inv_bind H.
  apply sort_groups_spec in H.
  assert (exists rs0, In (k, rs0) v /\ In x rs0) as (rs0 & H0 & Hx0).
  { clear E. induction H as [|[k1 r1] [k2 r2] g1 g2 (Ek & P & _) F IH];
      simpl in *; [tauto|].
    destruct Hin as [[= -> ->]|Hin].
    - exists r1. subst. split; [left; reflexivity|].
      eapply Permutation_in; [apply Permutation_sym, P | exact Hx].
    - destruct (IH Hin) as (rs0 & ? & ?). exists rs0. auto. }
  destruct (loop_records _ _ _ _ E _ _ _ H0 Hx0) as [(? & [] & _)|?].
  assumption.
Qed.

Lemma append_inv_tail (s s' t : string) : s ++ t = s' ++ t -> s = s'.
Proof.
  revert s'; induction s as [|c s IH]; intros [|c' s'] E; simpl in E.
  - reflexivity.
  - apply (f_equal String.length) in E. simpl in E.
    rewrite length_append in E. lia.
  - apply (f_equal String.length) in E. simpl in E.
    rewrite length_append in E. lia.
  - injection E as -> E. f_equal. apply IH, E.
Qed.

Lemma py_lower_Ok (v : json) (s : string) :
  py_lower v = Ok s -> exists raw, v = JStr raw /\ s = lower raw.
Proof.
  destruct v; simpl; try discriminate. intros [= <-]. eauto.
Qed.

(** The record that [pr_record] builds: its state is the raw state in
    lower case, and it is merged when that is the word [merged]. *)
Lemma pr_record_state (fromisoformat : iso_parser) (item k : json) (r : PR.t) :
  pr_record fromisoformat item = Ok (k, r) ->
  exists raw, py_get item "state" (JStr "") = Ok (JStr raw) /\
              PR.state r = lower raw /\
              PR.merged r = (lower raw =? "merged").
Proof.
  unfold pr_record. intro H.
  repeat inv_bind H.
  repeat match goal with
         | L : py_lower _ = Ok _ |- _ =>
             apply py_lower_Ok in L as (? & -> & ->)
         end.
  match goal with
  | G1 : py_get item "state" _ = Ok (JStr ?a),
    G2 : py_get item "state" _ = Ok (JStr ?b) |- _ =>
      rewrite G1 in G2; injection G2 as <-; exists a; split; [exact G1|]
  end.
  injection H as _ <-. simpl. auto.
Qed.

Lemma pr_tag_merged_iff (r : PR.t) (raw : string) :
  PR.state r = lower raw -> PR.merged r = (lower raw =? "merged") ->
  (pr_tag r = " [merged]" <-> lower raw = "merged") /\
  (lower raw <> "merged" ->
   pr_tag r = if lower raw =? "" then "" else " [" ++ lower raw ++ "]").
Proof.
  intros Es Em. unfold pr_tag, state_part. rewrite Em, Es. simpl truthy.
  destruct (String.eqb_spec (lower raw) "merged") as [E|N].
  - split; [tauto | contradiction].
  - split; [|intros _; destruct (lower raw =? ""); reflexivity].
    split; [|contradiction].
    destruct (lower raw =? ""); simpl; [discriminate|].
    intros [= E]. exfalso. apply N.
    apply (append_inv_tail (lower raw) "merged" "]"). exact E.
Qed.

(** ** C4: the tag of a pull request *)

(** C4.  For every record of the mapping that [process_prs] returns,
    which is what the PRs Created section renders, the record is the one
    that [process_prs] makes of a raw item of the data, the state of that
    item is a string and the record holds it in lower case, and the
    bracketed tag of the line of the record, the first line that the
    section prints for it with or without bodies, is [[merged]] if and
    only if that state in lower case is exactly [merged]; otherwise the
    tag is the lower-cased state in brackets, or nothing when the state
    is empty. *)
Theorem merged_tag_law (fromisoformat : iso_parser) (py_repr : json -> string)
    (data : list json) (g : grouped PR.t) :
  process_prs fromisoformat data = Ok g ->
  forall repo rs r, In (repo, rs) g -> In r rs ->
    exists item k raw,
      In item data /\
      pr_record fromisoformat item = Ok (k, r) /\
      py_get item "state" (JStr "") = Ok (JStr raw) /\
      PR.state r = lower raw /\
      pr_created_lines py_repr false r
      = Ok ["- " ++ py_str py_repr (PR.title r) ++ date_part (PR.date r)
            ++ pr_tag r] /\
      (forall include_body lines,
         pr_created_lines py_repr include_body r = Ok lines ->
         hd_error lines
         = Some ("- " ++ py_str py_repr (PR.title r)
                 ++ date_part (PR.date r) ++ pr_tag r)) /\
      (pr_tag r = " [merged]" <-> lower raw = "merged") /\
      (lower raw <> "merged" ->
       pr_tag r = if lower raw =? "" then "" else " [" ++ lower raw ++ "]").
Proof.
  intros H repo rs r Hin Hr.
  destruct (classify_records _ _ _ _ H _ _ _ Hin Hr) as (item & k & Hi & E).
  destruct (pr_record_state _ _ _ _ E) as (raw & Eg & Es & Em).
  exists item, k, raw. split; [exact Hi|]. split; [exact E|].
  split; [exact Eg|]. split; [exact Es|].
  split; [reflexivity|]. split.
  - intros include_body lines L. unfold pr_created_lines in L.
    destruct include_body.
    + inv_bind L. injection L as <-. reflexivity.
    + injection L as <-. reflexivity.
  - apply pr_tag_merged_iff; assumption.
Qed.

(** A state that only starts with the word is not merged. *)
Example merged_with_conflicts_tag :
  exists r,
    process_prs iso_basic
      [JObj [("title", JStr "T"); ("state", JStr "MERGED_WITH_CONFLICTS")]]
    = Ok [(JStr "unknown", [r])] /\
    pr_tag r = " [merged_with_conflicts]".
Proof.
  eexists. split; vm_compute; reflexivity.
Qed.

Lemma merged_tag_law_witness :
  let item := JObj [("title", JStr "T"); ("state", JStr "MERGED")] in
  let r := PR.mk (JStr "T") "merged" None (JStr "") true (JStr "") in
  process_prs iso_basic [item] = Ok [(JStr "unknown", [r])] /\
  exists item' k raw,
    In item' [item] /\
    pr_record iso_basic item' = Ok (k, r) /\
    py_get item' "state" (JStr "") = Ok (JStr raw) /\
    PR.state r = lower raw /\
    pr_created_lines no_repr false r
    = Ok ["- " ++ py_str no_repr (PR.title r) ++ date_part (PR.date r)
          ++ pr_tag r] /\
    (forall include_body lines,
       pr_created_lines no_repr include_body r = Ok lines ->
       hd_error lines
       = Some ("- " ++ py_str no_repr (PR.title r)
               ++ date_part (PR.date r) ++ pr_tag r)) /\
    (pr_tag r = " [merged]" <-> lower raw = "merged") /\
    (lower raw <> "merged" ->
     pr_tag r = if lower raw =? "" then "" else " [" ++ lower raw ++ "]").
Proof.
  split; [vm_compute; reflexivity|].
  apply (merged_tag_law iso_basic no_repr
           [JObj [("title", JStr "T"); ("state", JStr "MERGED")]]
           [(JStr "unknown",
             [PR.mk (JStr "T") "merged" None (JStr "") true (JStr "")])]
           ltac:(vm_compute; reflexivity)
           (JStr "unknown")
           [PR.mk (JStr "T") "merged" None (JStr "") true (JStr "")]).
  - left. reflexivity.
  - left. reflexivity.
Defined.

(** ** The period of the metadata block *)

Lemma min_from_spec (l : list datetime) :
  forall cur m, min_from cur l = Ok m ->
    In m (cur :: l) /\ not_earlier cur m /\
    (forall d, In d l -> not_earlier d m).
Proof.
  induction l as [|x l IH]; simpl; intros cur m H.
  - injection H as <-. split; [auto|]. split; [apply not_earlier_refl|tauto].
  - inv_bind H. destruct (IH _ _ H) as (Hin & Hc & Hall).
    destruct v.
    + assert (Hx : not_earlier cur x) by (apply dt_lt_true_flip; exact E).
      split; [simpl in Hin; tauto|].
      split; [eapply not_earlier_trans; eassumption|].
      intros d [<-|Hd]; [exact Hc | apply Hall, Hd].
    + split; [simpl in Hin; tauto|]. split; [exact Hc|].
      intros d [<-|Hd]; [|apply Hall, Hd].
      eapply not_earlier_trans; [exact E | exact Hc].
Qed.








(** The period is computed whenever the dates compare with one another:
    when all of them are naive, or all of them are offset-aware. *)
Lemma min_max_from_total (l : list datetime) (aware : bool) :
  (forall d, In d l ->
     (if aware then utcoffset d <> None else utcoffset d = None)) ->
  forall cur,
    (if aware then utcoffset cur <> None else utcoffset cur = None) ->
    (exists m, min_from cur l = Ok m) /\ (exists m, max_from cur l = Ok m).
Proof.
  induction l as [|x l IH]; simpl; intros Hall cur Hc; [eauto|].
  assert (Hx := Hall x (or_introl eq_refl)).
  assert (Hl : forall d, In d l ->
            if aware then utcoffset d <> None else utcoffset d = None)
    by (intros d Hd; apply Hall; auto).
  unfold dt_gt, dt_lt.
  destruct aware.
  - destruct (utcoffset x) eqn:Ex, (utcoffset cur) eqn:Ec; try congruence.
    simpl. split.
    + destruct (_ <? _)%Z; apply (IH Hl); congruence.
    + destruct (_ <? _)%Z; apply (IH Hl); congruence.
  - rewrite Hx, Hc. simpl. split.
    + destruct (_ <? _)%Z; apply (IH Hl); congruence.
    + destruct (_ <? _)%Z; apply (IH Hl); congruence.
Qed.

Lemma period_of_total (strftime_Y : Z -> string) (dates : list datetime) :
  (forall d, In d dates -> utcoffset d = None) \/
  (forall d, In d dates -> utcoffset d <> None) ->
  exists period, period_of strftime_Y dates = Ok period.
Proof.
  destruct dates as [|d0 l]; simpl; [eauto|].
  intros [H|H].
  - destruct (min_max_from_total l false (fun d Hd => H d (or_intror Hd))
                d0 (H d0 (or_introl eq_refl))) as ((m & ->) & (m' & ->)).
    simpl. eauto.
  - destruct (min_max_from_total l true (fun d Hd => H d (or_intror Hd))
                d0 (H d0 (or_introl eq_refl))) as ((m & ->) & (m' & ->)).
    simpl. eauto.
Qed.

(** ** C5: the period line *)




(** ** C6: the loader *)

(** C6 (as stated, refuted).  A file that exists and cannot be read makes
    the loader raise to its caller: only FileNotFoundError and
    JSONDecodeError are caught.  And a file that parses to an empty
    object is not returned as it was parsed, but as the empty list. *)
Lemma load_json_counterexample :
  load_json (fun _ => None) (fun _ => Unreadable PermissionError)
    "gh/commits.json"
  = Raise PermissionError /\
  load_json (fun _ => Some (JObj [])) (fun _ => Holds "{}")
    "gh/commits.json"
  = Ok (JArr []).
Proof.
  split; reflexivity.
Qed.

(** C6 (amended).  For every file path, the loader returns the empty list
    when the file is missing, when its text fails to parse as JSON (an
    empty text among them, once the decoder rejects it), and when the
    parsed value is false in Python's sense (null, false, 0, an empty
    string, list or object); it returns the parsed value otherwise; and
    when the file cannot be read for a reason other than its absence, the
    exception of the read reaches the caller. *)
Theorem load_json_law (decode : json_decoder) (fs : filesystem)
    (filepath : string) :
  (fs filepath = Absent -> load_json decode fs filepath = Ok (JArr [])) /\
  (forall text, fs filepath = Holds text -> decode text = None ->
     load_json decode fs filepath = Ok (JArr [])) /\
  (fs filepath = Holds "" -> decode "" = None ->
     load_json decode fs filepath = Ok (JArr [])) /\
  (forall text v, fs filepath = Holds text -> decode text = Some v ->
     load_json decode fs filepath = Ok (if truthy v then v else JArr [])) /\
  (forall e, fs filepath = Unreadable e ->
     e <> FileNotFoundError -> e <> JSONDecodeError ->
     load_json decode fs filepath = Raise e).
Proof.
  unfold load_json, open_read, json_load.
  split; [intros ->; reflexivity|].
  split; [intros text -> E; simpl; rewrite E; reflexivity|].
  split; [intros -> E; simpl; rewrite E; reflexivity|].
  split; [intros text v -> E; simpl; rewrite E; reflexivity|].
  intros e -> N1 N2. simpl. destruct e; congruence.
Qed.

Lemma load_json_law_witness :
  load_json (fun _ => None) (fun _ => Absent) "gh/prs_reviewed.json"
  = Ok (JArr []) /\
  load_json (fun _ => None) (fun _ => Holds "") "gh/prs_reviewed.json"
  = Ok (JArr []) /\
  load_json (fun _ => Some (JArr [JNull])) (fun _ => Holds "[null]")
    "gh/prs_reviewed.json"
  = Ok (JArr [JNull]) /\
  load_json (fun _ => None) (fun _ => Unreadable IsADirectoryError)
    "gh/prs_reviewed.json"
  = Raise IsADirectoryError.
Proof.
  split; [|split; [|split]].
  - apply (proj1 (load_json_law (fun _ => None) (fun _ => Absent)
                    "gh/prs_reviewed.json")). reflexivity.
  - apply (proj1 (proj2 (proj2 (load_json_law (fun _ => None)
                    (fun _ => Holds "") "gh/prs_reviewed.json"))));
      reflexivity.
  - apply (proj1 (proj2 (proj2 (proj2 (load_json_law
                    (fun _ => Some (JArr [JNull])) (fun _ => Holds "[null]")
                    "gh/prs_reviewed.json")))) "[null]" (JArr [JNull]));
      reflexivity.
  - apply (proj2 (proj2 (proj2 (proj2 (load_json_law (fun _ => None)
                    (fun _ => Unreadable IsADirectoryError)
                    "gh/prs_reviewed.json")))) IsADirectoryError);
      [reflexivity | discriminate | discriminate].
Defined.

(** ** C7: the document of an empty directory *)



(** ** C9: the body under a list line *)

Lemma strip_empty : strip "" = "".
Proof. reflexivity. Qed.

Lemma format_body_str (py_repr : json -> string) (s indent : string) :
  format_body (JStr s) indent
  = Ok (if strip s =? "" then []
        else map (fun line => indent ++ "> " ++ line) (split NL (strip s))).
Proof.
  unfold format_body. simpl truthy.
  destruct (String.eqb_spec s "") as [->|N]; simpl; [reflexivity|].
  destruct (strip s =? ""); reflexivity.
Qed.





(** ** The order of strs *)

Lemma cp_inj (a b : ascii) : cp a = cp b -> a = b.
Proof.
  unfold cp. intro H.
  rewrite <- (ascii_N_embedding a), <- (ascii_N_embedding b), H. reflexivity.
Qed.

Ltac cp_cases a b :=
  destruct (N.ltb_spec (cp a) (cp b)); destruct (N.eqb_spec (cp a) (cp b));
  try lia.

Lemma str_ltb_asym (s t : string) : str_ltb s t = true -> str_ltb t s = false.
Proof.
  revert t; induction s as [|a s IH]; intros [|b t]; cbn [str_ltb];
    try reflexivity; try discriminate.
  cp_cases a b; cp_cases b a; intro Hlt; try discriminate; try reflexivity.
  apply IH, Hlt.
Qed.

Lemma str_ltb_antisym (s t : string) :
  str_ltb s t = false -> str_ltb t s = false -> s = t.
Proof.
  revert t; induction s as [|a s IH]; intros [|b t]; cbn [str_ltb];
    try reflexivity; try discriminate.
  cp_cases a b; cp_cases b a; intros Hs Ht; try discriminate.
  f_equal; [apply cp_inj; assumption | apply IH; assumption].
Qed.

Lemma str_le_trans (a b c : string) : str_le a b -> str_le b c -> str_le a c.
Proof.
  unfold str_le. revert b c; induction a as [|x a IH]; intros [|y b] [|z c];
    cbn [str_ltb]; try reflexivity; try discriminate.
  cp_cases y x; cp_cases z y; cp_cases z x; intros Hs Ht;
    try discriminate; try reflexivity.
  eapply IH; eassumption.
Qed.

(** Two sorted lists of strs with the same elements are the same list. *)
Lemma sorted_perm_unique (l l' : list string) :
  StronglySorted str_le l -> StronglySorted str_le l' ->
  Permutation l l' -> l = l'.
Proof.
  intro S. revert l'. induction S as [|x l S IH F]; intros l' S' P.
  - apply Permutation_nil in P. congruence.
  - destruct S' as [|y l' S' F'].
    + apply Permutation_sym, Permutation_nil in P. discriminate.
    + assert (x = y) as <-.
      { rewrite Forall_forall in F, F'.
        assert (Hy : In y (x :: l))
          by (eapply Permutation_in; [apply Permutation_sym, P | left; auto]).
        assert (Hx : In x (y :: l'))
          by (eapply Permutation_in; [exact P | left; auto]).
        destruct Hy as [E|Hy]; [exact E|]. destruct Hx as [E|Hx]; [auto|].
        apply str_ltb_antisym; [apply F', Hx | apply F, Hy]. }
      f_equal. apply IH; [exact S'|]. eapply Permutation_cons_inv, P.
Qed.

(** ** sorted() on repository identifiers that are strs *)

Lemma insert_key_str (x : string) (l : list string) :
  StronglySorted str_le l ->
  exists r, insert_key (JStr x) (map JStr l) = Ok (map JStr r) /\
            Permutation (x :: l) r /\ StronglySorted str_le r.
Proof.
  induction 1 as [|y l S IH F]; cbn [map insert_key].
  - exists [x]. repeat constructor.
  - cbn [key_lt bind]. destruct (str_ltb y x) eqn:L.
    + destruct IH as (r & -> & P & Sr). cbn [bind].
      exists (y :: r). split; [reflexivity|].
      split; [apply perm_trans with (y :: x :: l);
              [apply perm_swap | apply perm_skip, P]|].
      constructor; [exact Sr|].
      apply (Permutation_Forall P). constructor; [|exact F].
      apply str_ltb_asym, L.
    + exists (x :: y :: l). split; [reflexivity|].
      split; [apply Permutation_refl|].
      constructor; [constructor; assumption|].
      constructor; [exact L|].
      rewrite Forall_forall in F |- *. intros z Hz.
      apply str_le_trans with y; [exact L | apply F, Hz].
Qed.

Lemma py_sorted_str (names : list string) :
  exists r, py_sorted (map JStr names) = Ok (map JStr r) /\
            Permutation names r /\ StronglySorted str_le r.
Proof.
  induction names as [|x l (r & E & P & S)]; cbn [map py_sorted].
  - exists []. repeat constructor.
  - rewrite E. cbn [bind].
    destruct (insert_key_str x r S) as (r' & E' & P' & S').
    exists r'. split; [exact E'|]. split; [|exact S'].
    apply perm_trans with (x :: r); [apply perm_skip, P | exact P'].
Qed.

(** ** The headings of a section *)

Lemma headings_app (l l' : list string) :
  headings (app l l') = app (headings l) (headings l').
Proof. apply filter_app. Qed.

Lemma headings_plain (ls : list string) :
  Forall (fun l => starts_with "### " l = false) ls -> headings ls = [].
Proof.
  induction 1 as [|x l H F IH]; [reflexivity|].
  unfold headings in *. cbn [filter]. rewrite H. exact IH.
Qed.

Lemma headings_concat_plain (lss : list (list string)) :
  Forall (Forall (fun l => starts_with "### " l = false)) lss ->
  headings (List.concat lss) = [].
Proof.
  induction 1 as [|ls lss H F IH]; [reflexivity|].
  cbn [List.concat]. rewrite headings_app, IH, (headings_plain _ H).
  reflexivity.
Qed.

Lemma repo_block_headings {A} (py_repr : json -> string)
    (item_lines : A -> outcome (list string)) (g : grouped A)
    (name : string) (block : list string) :
  plain_lines item_lines ->
  repo_block py_repr item_lines g (JStr name) = Ok block ->
  headings block = ["### " ++ name].
Proof.
  intros Pl H. unfold repo_block in H. inv_bind H. injection H as <-.
  change (headings (app ["### " ++ name] (app (List.concat v) [""]))
          = ["### " ++ name]).
  rewrite !headings_app, headings_concat_plain.
  - reflexivity.
  - apply mapM_Ok_Forall2 in E. clear - E Pl.
    induction E as [|r ls rs lss H F IH]; constructor; auto.
    apply (Pl r). exact H.
Qed.

Lemma blocks_headings {A} (py_repr : json -> string)
    (item_lines : A -> outcome (list string)) (g : grouped A)
    (names : list string) (blocks : list (list string)) :
  plain_lines item_lines ->
  mapM (repo_block py_repr item_lines g) (map JStr names) = Ok blocks ->
  headings (List.concat blocks) = map (fun name => "### " ++ name) names.
Proof.
  intro Pl. revert blocks.
  induction names as [|x l IH]; cbn [map mapM]; intros blocks H.
  - injection H as <-. reflexivity.
  - inv_bind H. inv_bind H. injection H as <-.
    cbn [List.concat]. rewrite headings_app.
    rewrite (repo_block_headings _ _ _ _ _ Pl E), (IH _ E0). reflexivity.
Qed.

Lemma section_headings {A} (py_repr : json -> string)
    (item_lines : A -> outcome (list string)) (g : grouped A)
    (names sorted : list string) (ls : list string) :
  plain_lines item_lines ->
  map fst g = map JStr names ->
  Permutation names sorted -> StronglySorted str_le sorted ->
  section_body py_repr item_lines g = Ok ls ->
  headings ls = map (fun name => "### " ++ name) sorted.
Proof.
  intros Pl Ek P S H. unfold section_body in H.
  destruct g as [|kv g].
  - destruct names; [|discriminate].
    apply Permutation_nil in P. subst sorted.
    injection H as <-. reflexivity.
  - rewrite Ek in H.
    destruct (py_sorted_str names) as (r & E & P' & S').
    rewrite E in H. cbn [bind] in H. inv_bind H. injection H as <-.
    assert (r = sorted) as ->.
    { apply sorted_perm_unique; auto.
      apply perm_trans with names; [apply Permutation_sym, P' | exact P]. }
    eapply blocks_headings; eassumption.
Qed.

Lemma plain_repo_order {A} (py_repr : json -> string)
    (item_lines : A -> outcome (list string)) :
  plain_lines item_lines -> repo_order_law_for py_repr item_lines.
Proof.
  intros Pl g names ls Ek H.
  destruct (py_sorted_str names) as (r & _ & P & S).
  exists r. split; [exact P|]. split; [exact S|].
  split; [eapply section_headings; eassumption|].
  intros g' names' ls' Ek' P' H'.
  eapply section_headings; try eassumption.
  apply perm_trans with names; [apply Permutation_sym, P' | exact P].
Qed.

Lemma format_body_plain (body : json) (ls : list string) :
  format_body body "  " = Ok ls ->
  Forall (fun l => starts_with "### " l = false) ls.
Proof.
  unfold format_body. destruct (negb (truthy body)).
  - intros [= <-]. constructor.
  - destruct body; try discriminate.
    destruct (negb (truthy (JStr (strip s)))); intros [= <-]; [constructor|].
    apply Forall_forall. intros l Hl. apply in_map_iff in Hl as (x & <- & _).
    reflexivity.
Qed.

Lemma commit_lines_plain : plain_lines commit_lines.
Proof. intros r ls [= <-]. repeat constructor. Qed.

Lemma issue_commented_lines_plain (py_repr : json -> string) :
  plain_lines (issue_commented_lines py_repr).
Proof. intros r ls [= <-]. repeat constructor. Qed.

Lemma pr_reviewed_lines_plain (py_repr : json -> string) :
  plain_lines (pr_reviewed_lines py_repr).
Proof. intros r ls [= <-]. repeat constructor. Qed.

Lemma issue_created_lines_plain (py_repr : json -> string) (ib : bool) :
  plain_lines (issue_created_lines py_repr ib).
Proof.
  intros r ls H. unfold issue_created_lines in H. destruct ib.
  - inv_bind H. injection H as <-. constructor; [reflexivity|].
    eapply format_body_plain, E.
  - injection H as <-. repeat constructor.
Qed.

Lemma pr_created_lines_plain (py_repr : json -> string) (ib : bool) :
  plain_lines (pr_created_lines py_repr ib).
Proof.
  intros r ls H. unfold pr_created_lines in H. destruct ib.
  - inv_bind H. injection H as <-. constructor; [reflexivity|].
    eapply format_body_plain, E.
  - injection H as <-. repeat constructor.
Qed.

(** ** The keys of a grouped mapping *)

Lemma key_eqb_str_l (s : string) (k : json) :
  key_eqb (JStr s) k = true -> k = JStr s.
Proof.
  destruct k; simpl; try discriminate.
  intro H. apply String.eqb_eq in H. congruence.
Qed.

Lemma key_eqb_str_r (s : string) (k : json) :
  key_eqb k (JStr s) = true -> k = JStr s.
Proof.
  destruct k; simpl; try discriminate; try (destruct b; discriminate).
  intro H. apply String.eqb_eq in H. congruence.
Qed.

Lemma group_append_keys {A} (g : grouped A) (k : json) (r : A) :
  map fst (group_append g k r) = add_key (map fst g) k.
Proof.
  induction g as [|[k0 rs] g IH]; simpl; [reflexivity|].
  destruct (key_eqb k0 k); simpl; [reflexivity|]. f_equal. exact IH.
Qed.

Lemma add_key_In (ks : list json) (k x : json) :
  In x (add_key ks k) -> In x ks \/ x = k.
Proof.
  induction ks as [|k0 ks IH]; simpl.
  - intros [<-|[]]. auto.
  - destruct (key_eqb k0 k); simpl; [tauto|].
    intros [<-|H]; [tauto|]. destruct (IH H); tauto.
Qed.

Lemma add_key_incl (ks : list json) (k x : json) :
  In x ks -> In x (add_key ks k).
Proof.
  induction ks as [|k0 ks IH]; simpl; [tauto|].
  destruct (key_eqb k0 k); simpl; [tauto|].
  intros [<-|H]; [tauto|]. right. apply IH, H.
Qed.

Lemma add_key_covers (ks : list json) (k : json) :
  exists k0, In k0 (add_key ks k) /\ (key_eqb k0 k = true \/ k0 = k).
Proof.
  induction ks as [|k0 ks (k1 & H1 & H2)]; simpl.
  - exists k. auto.
  - destruct (key_eqb k0 k) eqn:E.
    + exists k0. simpl. auto.
    + exists k1. simpl. auto.
Qed.

Lemma add_key_NoDup (ks : list json) (k : json) :
  NoDup ks -> is_str k -> NoDup (add_key ks k).
Proof.
  intros N [s ->]. induction N as [|k0 ks Hn N IH]; simpl.
  - repeat constructor. simpl. tauto.
  - destruct (key_eqb k0 (JStr s)) eqn:E; [constructor; assumption|].
    constructor; [|exact IH].
    intro H. apply add_key_In in H as [H| ->]; [contradiction|].
    simpl in E. rewrite String.eqb_refl in E. discriminate.
Qed.

Section LoopKeys.
Variable A : Type.
Variable record : json -> outcome (json * A).

Lemma loop_keys_from (data : list json) :
  forall g g', loop record g data = Ok g' ->
  forall x, In x (map fst g') ->
    In x (map fst g) \/
    exists item r, In item data /\ record item = Ok (x, r).
Proof.
  induction data as [|item data IH]; simpl; intros g g' H x Hx.
  - injection H as <-. auto.
  - inv_bind H. destruct v as [k r]. simpl in H.
    destruct (IH _ _ H x Hx) as [Hg|(it & r' & Hi & E')].
    + rewrite group_append_keys in Hg.
      apply add_key_In in Hg as [Hg| ->]; [auto|].
      right. exists item, r. auto.
    + right. exists it, r'. auto.
Qed.

Lemma loop_keys_incl (data : list json) :
  forall g g', loop record g data = Ok g' ->
  forall x, In x (map fst g) -> In x (map fst g').
Proof.
  induction data as [|item data IH]; simpl; intros g g' H x Hx.
  - injection H as <-. exact Hx.
  - inv_bind H. apply (IH _ _ H).
    rewrite group_append_keys. apply add_key_incl, Hx.
Qed.

Lemma loop_keys_cover (data : list json) :
  forall g g', loop record g data = Ok g' ->
  forall item k r, In item data -> record item = Ok (k, r) ->
    exists k0, In k0 (map fst g') /\ (key_eqb k0 k = true \/ k0 = k).
Proof.
  induction data as [|it data IH]; simpl; intros g g' H item k r Hi E;
    [tauto|].
  inv_bind H. destruct Hi as [->|Hi].
  - rewrite E in E0. injection E0 as <-. simpl in H.
    destruct (add_key_covers (map fst g) k) as (k0 & H0 & Hk).
    exists k0. split; [|exact Hk].
    apply (loop_keys_incl _ _ _ H). rewrite group_append_keys. exact H0.
  - eapply IH; eassumption.
Qed.

Lemma loop_keys_NoDup (data : list json) :
  forall g g', loop record g data = Ok g' ->
  (forall x, In x (map fst g') -> is_str x) ->
  NoDup (map fst g) -> NoDup (map fst g').
Proof.
  induction data as [|item data IH]; simpl; intros g g' H S N.
  - injection H as <-. exact N.
  - inv_bind H. apply (IH _ _ H S).
    rewrite group_append_keys. apply add_key_NoDup; [exact N|].
    destruct (add_key_covers (map fst g) (fst v)) as (k0 & H0 & Hk).
    assert (Sk : is_str k0).
    { apply S, (loop_keys_incl _ _ _ H).
      rewrite group_append_keys. exact H0. }
    destruct Sk as [s ->]. exists s.
    destruct Hk as [Hk|Hk]; [apply key_eqb_str_l in Hk|]; congruence.
Qed.

Variable date : A -> option datetime.

Lemma sort_groups_keys (g g' : grouped A) :
  sort_groups date g = Ok g' -> map fst g' = map fst g.
Proof.
  intro H. apply sort_groups_spec in H.
  induction H as [|kv kv' g g' (E & _) F IH]; simpl; congruence.
Qed.

(** The identifiers that a classifier returns do not depend, as a set,
    on the order of the raw items. *)
Lemma classify_keys_permuted : keys_permuted (classify record date).
Proof.
  intros data data' g g' names P H H' Ek.
  unfold classify in H, H'. inv_bind H. inv_bind H'.
  apply sort_groups_keys in H, H'. rewrite H in Ek. rewrite H'.
  clear H H' g g'. rename v into g, v0 into g'.
  assert (Sg : forall x, In x (map fst g) -> is_str x).
  { intros x Hx. rewrite Ek in Hx. apply in_map_iff in Hx as (s & <- & _).
    exists s. reflexivity. }
  assert (Sub' : forall x, In x (map fst g') -> In x (map fst g)).
  { intros x Hx.
    destruct (loop_keys_from _ _ _ E0 x Hx) as [[]|(item & r & Hi & Er)].
    apply Permutation_sym in P. apply (Permutation_in _ P) in Hi.
    destruct (loop_keys_cover _ _ _ E _ _ _ Hi Er) as (k0 & H0 & Hk).
    destruct (Sg _ H0) as [s ->].
    destruct Hk as [Hk| <-]; [apply key_eqb_str_l in Hk; subst x|];
      exact H0. }
  assert (Sub : forall x, In x (map fst g) -> In x (map fst g')).
  { intros x Hx. destruct (Sg _ Hx) as [s ->].
    destruct (loop_keys_from _ _ _ E _ Hx) as [[]|(item & r & Hi & Er)].
    apply (Permutation_in _ P) in Hi.
    destruct (loop_keys_cover _ _ _ E0 _ _ _ Hi Er) as (k0 & H0 & Hk).
    destruct Hk as [Hk| <-]; [apply key_eqb_str_r in Hk; subst k0|];
      exact H0. }
  assert (PK : Permutation (map fst g) (map fst g')).
  { apply NoDup_Permutation.
    - apply (loop_keys_NoDup _ _ _ E Sg). constructor.
    - apply (loop_keys_NoDup _ _ _ E0); [|constructor].
      intros x Hx. apply Sg, Sub', Hx.
    - intro x. split; [apply Sub | apply Sub']. }
  rewrite Ek in PK. apply Permutation_sym in PK.
  apply Permutation_map_inv in PK as (names' & E' & P').
  exists names'. split; [exact E' | exact P'].
Qed.
End LoopKeys.

(** ** C8: the order of the repositories *)

(** C8.  In each of the five sections, for a mapping whose repository
    identifiers are strings, the subsection headings are these
    identifiers in lexicographic order, and they are the same for any
    other mapping with the same identifiers inserted in another order;
    and permuting the raw items that a classifier reads only permutes
    the identifiers of the mapping it returns, so that the order of the
    repositories in the output does not change. *)
Theorem repository_order_law (fromisoformat : iso_parser)
    (py_repr : json -> string) (include_body : bool) :
  repo_order_law_for py_repr commit_lines /\
  repo_order_law_for py_repr (issue_created_lines py_repr include_body) /\
  repo_order_law_for py_repr (issue_commented_lines py_repr) /\
  repo_order_law_for py_repr (pr_created_lines py_repr include_body) /\
  repo_order_law_for py_repr (pr_reviewed_lines py_repr) /\
  keys_permuted (process_commits fromisoformat) /\
  keys_permuted (process_issues fromisoformat) /\
  keys_permuted (process_prs fromisoformat).
Proof.
  repeat apply conj.
  - apply plain_repo_order, commit_lines_plain.
  - apply plain_repo_order, issue_created_lines_plain.
  - apply plain_repo_order, issue_commented_lines_plain.
  - apply plain_repo_order, pr_created_lines_plain.
  - apply plain_repo_order, pr_reviewed_lines_plain.
  - apply classify_keys_permuted.
  - apply classify_keys_permuted.
  - apply classify_keys_permuted.
Qed.

(** Two repositories inserted in the order [zeta], [alpha]. *)
Lemma repository_order_law_witness :
  exists sorted,
    Permutation ["zeta"; "alpha"] sorted /\
    StronglySorted str_le sorted /\
    headings ["### alpha"; "- Fix bug"; ""; "### zeta"; "- Fix bug"; ""]
    = map (fun name => "### " ++ name) sorted /\
    (forall (g' : grouped Commit.t) (names' ls' : list string),
       map fst g' = map JStr names' ->
       Permutation ["zeta"; "alpha"] names' ->
       section_body no_repr commit_lines g' = Ok ls' ->
       headings ls' = map (fun name => "### " ++ name) sorted).
Proof.
  apply (proj1 (repository_order_law iso_basic no_repr false)
           [(JStr "zeta", [Commit.mk None "Fix bug"]);
            (JStr "alpha", [Commit.mk None "Fix bug"])]
           ["zeta"; "alpha"]
           ["### alpha"; "- Fix bug"; ""; "### zeta"; "- Fix bug"; ""]);
    reflexivity.
Defined.

(** ** Outcomes and mappings in relation *)

Lemma orel_bind {A B} (R : A -> A -> Prop) (S : B -> B -> Prop)
    (m m' : outcome A) (k k' : A -> outcome B) :
  orel R m m' -> (forall a a', R a a' -> orel S (k a) (k' a')) ->
  orel S (bind m k) (bind m' k').
Proof.
  destruct m, m'; simpl; intros H K; try contradiction; auto.
Qed.

Lemma orel_eq {A} (x y : outcome A) : orel eq x y -> x = y.
Proof.
  destruct x, y; simpl; intro H; try contradiction; congruence.
Qed.

Lemma orel_refl {A} (R : A -> A -> Prop) (x : outcome A) :
  (forall a, R a a) -> orel R x x.
Proof. intro H. destruct x; simpl; auto. Qed.

Lemma Forall2_refl {A} (R : A -> A -> Prop) (l : list A) :
  (forall a, R a a) -> Forall2 R l l.
Proof. intro H. induction l; constructor; auto. Qed.

Lemma grel_refl {A} (R : A -> A -> Prop) (g : grouped A) :
  (forall a, R a a) -> grel R g g.
Proof.
  intro H. apply Forall2_refl. intros kv. split; [reflexivity|].
  apply Forall2_refl, H.
Qed.

Lemma grel_keys {A} (R : A -> A -> Prop) (g g' : grouped A) :
  grel R g g' -> map fst g = map fst g'.
Proof.
  induction 1 as [|kv kv' g g' (E & _) F IH]; simpl; congruence.
Qed.

Lemma group_append_rel {A} (R : A -> A -> Prop) (g g' : grouped A)
    (k : json) (r r' : A) :
  grel R g g' -> R r r' ->
  grel R (group_append g k r) (group_append g' k r').
Proof.
  intros G Hr.
  induction G as [|[k0 rs] [k0' rs'] g g' (E & Frs) F IH]; simpl in *.
  - repeat constructor; auto.
  - subst k0'. destruct (key_eqb k0 k).
    + constructor; [|exact F]. split; [reflexivity|]. simpl.
      apply Forall2_app; [exact Frs | repeat constructor; exact Hr].
    + constructor; [|exact IH]. split; [reflexivity | exact Frs].
Qed.

Lemma group_lookup_rel {A} (R : A -> A -> Prop) (g g' : grouped A)
    (k : json) :
  grel R g g' -> Forall2 R (group_lookup g k) (group_lookup g' k).
Proof.
  induction 1 as [|[k0 rs] [k0' rs'] g g' (E & Frs) F IH]; simpl in *.
  - constructor.
  - subst k0'. destruct (key_eqb k0 k); assumption.
Qed.

Section Related.
Variable A : Type.
Variable R : A -> A -> Prop.
Variable date : A -> option datetime.
Hypothesis R_date : forall r r', R r r' -> date r = date r'.

Lemma insert_desc_rel (x x' : A) (l l' : list A) :
  R x x' -> Forall2 R l l' ->
  orel (Forall2 R) (insert_desc date x l) (insert_desc date x' l').
Proof.
  intros Hx F. induction F as [|y y' l l' Hy F IH]; simpl.
  - repeat constructor. exact Hx.
  - rewrite <- (R_date _ _ Hx), <- (R_date _ _ Hy).
    destruct (dt_lt (sort_key (date x)) (sort_key (date y))) as [[|]|e];
      simpl; [| |reflexivity].
    + apply orel_bind with (R := Forall2 R); [exact IH|].
      intros a a' Ha. simpl. constructor; assumption.
    + repeat constructor; assumption.
Qed.

Lemma sort_by_date_desc_rel (l l' : list A) :
  Forall2 R l l' ->
  orel (Forall2 R) (sort_by_date_desc date l) (sort_by_date_desc date l').
Proof.
  induction 1 as [|x x' l l' Hx F IH]; simpl; [constructor|].
  apply orel_bind with (R := Forall2 R); [exact IH|].
  intros s s' Hs. apply insert_desc_rel; assumption.
Qed.

Lemma sort_groups_rel (g g' : grouped A) :
  grel R g g' -> orel (grel R) (sort_groups date g) (sort_groups date g').
Proof.
  unfold sort_groups.
  induction 1 as [|[k rs] [k' rs'] g g' (E & Frs) F IH]; simpl in *;
    [constructor|].
  subst k'.
  apply orel_bind with (R := keyed (Forall2 R)).
  - apply orel_bind with (R := Forall2 R);
      [apply sort_by_date_desc_rel, Frs|].
    intros s s' Hs. simpl. split; [reflexivity | exact Hs].
  - intros kv kv' (Ek & Hkv).
    apply orel_bind with (R := grel R); [exact IH|].
    intros t t' Ht. simpl. constructor; [|exact Ht]. split; assumption.
Qed.

Variable record : json -> outcome (json * A).
Hypothesis record_rel : forall item item',
  same_but_url item item' -> orel (keyed R) (record item) (record item').

Lemma loop_rel (data data' : list json) :
  Forall2 same_but_url data data' ->
  forall g g', grel R g g' ->
    orel (grel R) (loop record g data) (loop record g' data').
Proof.
  induction 1 as [|item item' data data' Hi F IH]; simpl; intros g g' G;
    [exact G|].
  apply orel_bind with (R := keyed R); [apply record_rel, Hi|].
  intros [k r] [k' r'] (Ek & Hr). simpl in *. subst k'.
  apply IH, group_append_rel; assumption.
Qed.

Lemma classify_rel (data data' : list json) :
  Forall2 same_but_url data data' ->
  orel (grel R) (classify record date data) (classify record date data').
Proof.
  intro F. unfold classify.
  apply orel_bind with (R := grel R); [apply loop_rel; [exact F|constructor]|].
  intros g g' G. apply sort_groups_rel, G.
Qed.

(** *** The renderer on related mappings *)

Variable py_repr : json -> string.
Variable item_lines : A -> outcome (list string).
Hypothesis item_lines_rel :
  forall r r', R r r' -> item_lines r = item_lines r'.

Lemma mapM_rel (l l' : list A) :
  Forall2 R l l' -> mapM item_lines l = mapM item_lines l'.
Proof.
  induction 1 as [|x x' l l' Hx F IH]; simpl; [reflexivity|].
  rewrite (item_lines_rel _ _ Hx), IH. reflexivity.
Qed.

Lemma section_body_rel (g g' : grouped A) :
  grel R g g' ->
  section_body py_repr item_lines g = section_body py_repr item_lines g'.
Proof.
  intro G. unfold section_body.
  rewrite <- (grel_keys _ _ _ G).
  assert (B : forall k, repo_block py_repr item_lines g k
                        = repo_block py_repr item_lines g' k).
  { intro k. unfold repo_block.
    rewrite (mapM_rel _ _ (group_lookup_rel _ _ _ k G)). reflexivity. }
  destruct G as [|kv kv' g g' H G]; [reflexivity|].
  destruct (py_sorted (map fst (kv :: g))) as [keys|e]; [|reflexivity].
  simpl. f_equal.
  induction keys as [|k keys IH]; simpl; [reflexivity|].
  rewrite B, IH. reflexivity.
Qed.

Lemma present_dates_rel (g g' : grouped A) :
  grel R g g' -> present_dates date g = present_dates date g'.
Proof.
  unfold present_dates.
  induction 1 as [|[k rs] [k' rs'] g g' (_ & Frs) F IH]; simpl in *;
    [reflexivity|].
  rewrite IH. f_equal.
  induction Frs as [|x x' l l' Hx Fl IHl]; simpl; [reflexivity|].
  rewrite (R_date _ _ Hx), IHl. reflexivity.
Qed.

Lemma total_rel (g g' : grouped A) : grel R g g' -> total g = total g'.
Proof.
  unfold total.
  induction 1 as [|[k rs] [k' rs'] g g' (_ & Frs) F IH]; simpl in *;
    [reflexivity|].
  rewrite IH, (Forall2_length Frs). reflexivity.
Qed.
End Related.

(** ** C10: the url of a raw item *)

Lemma assoc_same_field (k : string) (fields fields' : list (string * json)) :
  Forall2 same_field fields fields' -> k <> "url" ->
  assoc k fields = assoc k fields'.
Proof.
  intros F N. induction F as [|[k0 v] [k0' v'] f f' (E & Ev) F IH]; simpl in *;
    [reflexivity|].
  subst k0'. destruct (String.eqb_spec k0 k) as [->|_]; [|exact IH].
  f_equal. apply Ev, N.
Qed.

Lemma py_get_same_field (k : string) (d : json)
    (fields fields' : list (string * json)) :
  Forall2 same_field fields fields' -> k <> "url" ->
  py_get (JObj fields') k d = py_get (JObj fields) k d.
Proof.
  intros F N. unfold py_get. rewrite (assoc_same_field k _ _ F N). reflexivity.
Qed.

Ltac same_gets F :=
  rewrite ?(py_get_same_field "repository" _ _ _ F ltac:(discriminate)),
          ?(py_get_same_field "commit" _ _ _ F ltac:(discriminate)),
          ?(py_get_same_field "createdAt" _ _ _ F ltac:(discriminate)),
          ?(py_get_same_field "title" _ _ _ F ltac:(discriminate)),
          ?(py_get_same_field "state" _ _ _ F ltac:(discriminate)),
          ?(py_get_same_field "body" _ _ _ F ltac:(discriminate)).

Ltac step_bind :=
  match goal with
  | |- orel _ (bind ?m _) (bind ?m _) =>
      destruct m; cbn [bind]; [|reflexivity]
  | |- orel _ (bind (py_get (JObj ?f) "url" _) _)
              (bind (py_get (JObj ?f') "url" _) _) =>
      unfold py_get at 1 3;
      destruct (assoc "url" f), (assoc "url" f'); cbn [bind]
  end.

Lemma commit_record_same (fromisoformat : iso_parser) (item item' : json) :
  same_but_url item item' ->
  orel (keyed eq) (commit_record fromisoformat item)
                  (commit_record fromisoformat item').
Proof.
  intros [v|f f' F].
  - apply orel_refl. intros a. split; reflexivity.
  - unfold commit_record. same_gets F.
    apply orel_refl. intros a. split; reflexivity.
Qed.

Lemma issue_record_same (fromisoformat : iso_parser) (item item' : json) :
  same_but_url item item' ->
  orel (keyed issue_same_but_url) (issue_record fromisoformat item)
                                  (issue_record fromisoformat item').
Proof.
  intros [v|f f' F].
  - apply orel_refl. intros a. repeat split; reflexivity.
  - unfold issue_record, repo_with_owner. same_gets F.
    repeat step_bind; repeat split; reflexivity.
Qed.

Lemma pr_record_same (fromisoformat : iso_parser) (item item' : json) :
  same_but_url item item' ->
  orel (keyed pr_same_but_url) (pr_record fromisoformat item)
                               (pr_record fromisoformat item').
Proof.
  intros [v|f f' F].
  - apply orel_refl. intros a. repeat split; reflexivity.
  - unfold pr_record, repo_with_owner. same_gets F.
    repeat step_bind; repeat split; reflexivity.
Qed.

Lemma py_iter_same (data data' : json) :
  same_data_but_url data data' ->
  orel (Forall2 same_but_url) (py_iter data) (py_iter data').
Proof.
  intros [v|l l' F].
  - apply orel_refl. intro l. apply Forall2_refl. constructor.
  - exact F.
Qed.

Lemma process_commits_same (fromisoformat : iso_parser)
    (data data' : list json) :
  Forall2 same_but_url data data' ->
  orel (grel eq) (process_commits fromisoformat data)
                 (process_commits fromisoformat data').
Proof.
  intro F.
  apply (classify_rel _ eq Commit.date); [| |exact F].
  - intros r r' ->. reflexivity.
  - apply commit_record_same.
Qed.

Lemma process_issues_same (fromisoformat : iso_parser)
    (data data' : list json) :
  Forall2 same_but_url data data' ->
  orel (grel issue_same_but_url) (process_issues fromisoformat data)
                 (process_issues fromisoformat data').
Proof.
  intro F.
  apply (classify_rel _ issue_same_but_url Issue.date); [| |exact F].
  - intros r r' (_ & _ & E & _). exact E.
  - apply issue_record_same.
Qed.

Lemma process_prs_same (fromisoformat : iso_parser)
    (data data' : list json) :
  Forall2 same_but_url data data' ->
  orel (grel pr_same_but_url) (process_prs fromisoformat data)
                 (process_prs fromisoformat data').
Proof.
  intro F.
  apply (classify_rel _ pr_same_but_url PR.date); [| |exact F].
  - intros r r' (_ & _ & E & _). exact E.
  - apply pr_record_same.
Qed.

(** The renderer reads no url. *)
Lemma generate_markdown_same (py_repr : json -> string)
    (strftime_Y : Z -> string)
    (c c' : grouped Commit.t) (ic ic' im im' : grouped Issue.t)
    (pc pc' pr pr' : grouped PR.t) (dir_name : string) (include_body : bool) :
  grel eq c c' ->
  grel issue_same_but_url ic ic' -> grel issue_same_but_url im im' ->
  grel pr_same_but_url pc pc' -> grel pr_same_but_url pr pr' ->
  generate_markdown py_repr strftime_Y c ic im pc pr dir_name include_body
  = generate_markdown py_repr strftime_Y c' ic' im' pc' pr' dir_name
      include_body.
Proof.
  intros Gc Gic Gim Gpc Gpr.
  assert (Di : forall r r', issue_same_but_url r r' ->
                            Issue.date r = Issue.date r')
    by (intros r r' (_ & _ & E & _); exact E).
  unfold generate_markdown, generate_markdown_lines.
  rewrite (present_dates_rel _ eq Commit.date
             ltac:(intros ? ? ->; reflexivity) _ _ Gc).
  rewrite (present_dates_rel _ issue_same_but_url Issue.date Di _ _ Gic).
  rewrite (total_rel _ _ _ _ Gc), (total_rel _ _ _ _ Gic),
          (total_rel _ _ _ _ Gim), (total_rel _ _ _ _ Gpc),
          (total_rel _ _ _ _ Gpr).
  rewrite (section_body_rel _ eq py_repr commit_lines
             ltac:(intros ? ? ->; reflexivity) _ _ Gc).
  rewrite (section_body_rel _ issue_same_but_url py_repr
             (issue_created_lines py_repr include_body)
             ltac:(intros [] [] (E1 & E2 & E3 & E4); simpl in *; subst;
                   reflexivity) _ _ Gic).
  rewrite (section_body_rel _ issue_same_but_url py_repr
             (issue_commented_lines py_repr)
             ltac:(intros [] [] (E1 & E2 & E3 & E4); simpl in *; subst;
                   reflexivity) _ _ Gim).
  rewrite (section_body_rel _ pr_same_but_url py_repr
             (pr_created_lines py_repr include_body)
             ltac:(intros [] [] (E1 & E2 & E3 & E4 & E5); simpl in *; subst;
                   reflexivity) _ _ Gpc).
  rewrite (section_body_rel _ pr_same_but_url py_repr
             (pr_reviewed_lines py_repr)
             ltac:(intros [] [] (E1 & E2 & E3 & E4 & E5); simpl in *; subst;
                   reflexivity) _ _ Gpr).
  reflexivity.
Qed.

(** C10.  The rendered document does not depend on the [url] of any raw
    item: two datasets whose five collections differ at most in the
    values under the [url] key of their items give the same outcome,
    the same document or the same exception. *)
Theorem url_independence (fromisoformat : iso_parser)
    (py_repr : json -> string)
    (strftime_Y : Z -> string)
    (c c' ic ic' im im' pc pc' pr pr' : json)
    (dir_name : string) (include_body : bool) :
  same_data_but_url c c' ->
  same_data_but_url ic ic' -> same_data_but_url im im' ->
  same_data_but_url pc pc' -> same_data_but_url pr pr' ->
  digest fromisoformat py_repr strftime_Y c ic im pc pr dir_name include_body
  = digest fromisoformat py_repr strftime_Y c' ic' im' pc' pr' dir_name
      include_body.
Proof.
  intros Sc Sic Sim Spc Spr. apply orel_eq. unfold digest.
  apply orel_bind with (R := Forall2 same_but_url);
    [apply py_iter_same, Sc|]. intros lc lc' Fc.
  apply orel_bind with (R := grel eq);
    [apply process_commits_same, Fc|]. intros gc gc' Gc.
  apply orel_bind with (R := Forall2 same_but_url);
    [apply py_iter_same, Sic|]. intros lic lic' Fic.
  apply orel_bind with (R := grel issue_same_but_url);
    [apply process_issues_same, Fic|]. intros gic gic' Gic.
  apply orel_bind with (R := Forall2 same_but_url);
    [apply py_iter_same, Sim|]. intros lim lim' Fim.
  apply orel_bind with (R := grel issue_same_but_url);
    [apply process_issues_same, Fim|]. intros gim gim' Gim.
  apply orel_bind with (R := Forall2 same_but_url);
    [apply py_iter_same, Spc|]. intros lpc lpc' Fpc.
  apply orel_bind with (R := grel pr_same_but_url);
    [apply process_prs_same, Fpc|]. intros gpc gpc' Gpc.
  apply orel_bind with (R := Forall2 same_but_url);
    [apply py_iter_same, Spr|]. intros lpr lpr' Fpr.
  apply orel_bind with (R := grel pr_same_but_url);
    [apply process_prs_same, Fpr|]. intros gpr gpr' Gpr.
  rewrite (generate_markdown_same py_repr strftime_Y gc gc' gic gic' gim gim'
             gpc gpc' gpr gpr' dir_name include_body Gc Gic Gim Gpc Gpr).
  apply orel_refl. reflexivity.
Qed.

(** Two exports of the same pull request under two addresses. *)
Lemma url_independence_witness :
  let pr_at (u : string) :=
    JArr [JObj [ ("repository", JObj [("nameWithOwner", JStr "o/r")]);
                 ("title", JStr "T"); ("state", JStr "OPEN");
                 ("url", JStr u) ]] in
  digest iso_basic no_repr pad4 (JArr []) (JArr []) (JArr [])
    (pr_at "https://github.com/o/r/pull/1") (JArr []) "gh" true
  = digest iso_basic no_repr pad4 (JArr []) (JArr []) (JArr [])
      (pr_at "https://example.org/elsewhere") (JArr []) "gh" true.
Proof.
  apply (url_independence iso_basic no_repr pad4); try apply sdu_same.
  apply sdu_arr. constructor; [|constructor]. apply sbu_obj.
  repeat (constructor;
          [split; [reflexivity
                  | intro N; try reflexivity; exfalso; apply N; reflexivity]|]).
  constructor.
Defined.

(** * Further properties *)

(** ** split, join and strip *)

Lemma contains_append (c : ascii) (s t : string) :
  contains c (s ++ t) = contains c s || contains c t.
Proof.
  induction s as [|d s IH]; simpl; [reflexivity|].
  rewrite IH. apply orb_assoc.
Qed.

Lemma split_cons (sep c : ascii) (s : string) :
  split sep (String c s)
  = if Ascii.eqb c sep then "" :: split sep s
    else match split sep s with
         | [] => [String c ""]
         | w :: ws => String c w :: ws
         end.
Proof. reflexivity. Qed.

(** No piece of a split holds the separator. *)
Lemma split_no_sep (sep : ascii) (s : string) :
  Forall (fun w => contains sep w = false) (split sep s).
Proof.
  induction s as [|c s IH].
  - repeat constructor.
  - rewrite split_cons. destruct (Ascii.eqb_spec c sep) as [->|N].
    + constructor; [reflexivity | exact IH].
    + assert (Hc : forall w, contains sep w = false ->
                             contains sep (String c w) = false).
      { intros w Hw.
        change (contains sep (String c w))
          with (Ascii.eqb sep c || contains sep w).
        rewrite ascii_eqb_sym.
        replace (Ascii.eqb c sep) with false
          by (symmetry; apply Ascii.eqb_neq; exact N).
        exact Hw. }
      destruct (split sep s) as [|w ws].
      * constructor; [apply Hc; reflexivity | constructor].
      * apply Forall_cons_iff in IH as [Hw Hws].
        constructor; [apply Hc, Hw | exact Hws].
Qed.

(** Joining the pieces of a split with the separator gives the string
    back. *)
Lemma join_split (sep : ascii) (s : string) :
  join (String sep "") (split sep s) = s.
Proof.
  induction s as [|c s IH]; [reflexivity|].
  rewrite split_cons. pose proof (split_nonempty sep s) as NE.
  destruct (Ascii.eqb_spec c sep) as [->|N].
  - destruct (split sep s) as [|w ws]; [congruence|].
    change (join (String sep "") ("" :: w :: ws))
      with (String sep (join (String sep "") (w :: ws))).
    rewrite IH. reflexivity.
  - destruct (split sep s) as [|w ws]; [congruence|].
    destruct ws as [|w' ws].
    + simpl in *. congruence.
    + change (join (String sep "") (String c w :: w' :: ws))
        with (String c (join (String sep "") (w :: w' :: ws))).
      rewrite IH. reflexivity.
Qed.

Lemma first_line_no_newline (s : string) :
  contains NL s = false -> first_line s = s.
Proof.
  intro H. destruct (first_line_spec s) as (_ & [E|(rest & E)]); [auto|].
  rewrite E in H. rewrite contains_append in H.
  change (contains NL (String NL rest)) with (Ascii.eqb NL NL || contains NL rest)
    in H.
  rewrite Ascii.eqb_refl in H. rewrite orb_true_r in H. discriminate.
Qed.

Lemma lstrip_id (s : string) :
  (forall c, first_char s = Some c -> is_space c = false) -> lstrip s = s.
Proof.
  destruct s as [|c s]; simpl; [reflexivity|].
  intro H. rewrite (H c eq_refl). reflexivity.
Qed.

Lemma rstrip_id (s : string) :
  (forall c, last_char s = Some c -> is_space c = false) -> rstrip s = s.
Proof.
  induction s as [|c s IH]; [reflexivity|].
  intro H. cbn [rstrip]. destruct s as [|d s].
  - simpl. rewrite (H c eq_refl). reflexivity.
  - rewrite IH; [reflexivity|]. intros x Hx. apply H. exact Hx.
Qed.

Lemma strip_trimmed (s : string) : trimmed s -> strip s = s.
Proof.
  intros [Hf Hl]. unfold strip. rewrite (lstrip_id s Hf). apply rstrip_id, Hl.
Qed.

Lemma strip_idempotent (s : string) : strip (strip s) = strip s.
Proof.
  destruct (strip_spec s) as (_ & _ & _ & _ & _ & T). apply strip_trimmed, T.
Qed.

Lemma all_space_append (s t : string) :
  all_space (s ++ t) = all_space s && all_space t.
Proof.
  induction s as [|c s IH]; simpl; [reflexivity|].
  rewrite IH. apply andb_assoc.
Qed.

Lemma lstrip_all_space (s : string) : all_space s = true -> lstrip s = "".
Proof.
  induction s as [|c s IH]; simpl; [reflexivity|].
  intro H. apply andb_prop in H as [-> H]. apply IH, H.
Qed.

Lemma lstrip_append (s t : string) :
  lstrip (s ++ t) = if all_space s then lstrip t else lstrip s ++ t.
Proof.
  induction s as [|c s IH]; simpl; [reflexivity|].
  destruct (is_space c); simpl; [exact IH | reflexivity].
Qed.

Lemma rstrip_all_space (s : string) : all_space s = true -> rstrip s = "".
Proof.
  induction s as [|c s IH]; simpl; [reflexivity|].
  intro H. apply andb_prop in H as [-> H]. rewrite (IH H). reflexivity.
Qed.

Lemma rstrip_append_space (s r : string) :
  all_space r = true -> rstrip (s ++ r) = rstrip s.
Proof.
  intro H. induction s as [|c s IH]; simpl.
  - apply rstrip_all_space, H.
  - rewrite IH. reflexivity.
Qed.

(** Whitespace around a string does not change what [strip] returns. *)
Lemma strip_surrounded (l s r : string) :
  all_space l = true -> all_space r = true -> strip (l ++ s ++ r) = strip s.
Proof.
  intros Hl Hr. unfold strip. rewrite lstrip_append, Hl, lstrip_append.
  destruct (all_space s) eqn:Hs.
  - rewrite (lstrip_all_space r Hr), (lstrip_all_space s Hs). reflexivity.
  - apply rstrip_append_space, Hr.
Qed.

Lemma strip_contains (c : ascii) (s : string) :
  contains c s = false -> contains c (strip s) = false.
Proof.
  intro H. destruct (strip_spec s) as (l & r & E & _).
  rewrite E, !contains_append in H.
  apply orb_false_elim in H as [_ H]. apply orb_false_elim in H as [H _].
  exact H.
Qed.

Lemma trimmed_empty : trimmed "".
Proof. split; discriminate. Qed.

Lemma last_char_append_nonempty (s t : string) :
  t <> "" -> last_char (s ++ t) = last_char t.
Proof.
  intro N. induction s as [|c s IH]; [reflexivity|].
  simpl. rewrite IH. destruct (s ++ t) eqn:E; [|reflexivity].
  destruct s; simpl in E; [congruence | discriminate].
Qed.

(** ** get_first_line, for any value *)

Lemma get_first_line_cases (v : json) (m : string) :
  get_first_line v = Ok m ->
  m = "" \/
  exists s, v = JStr s /\
    let line := strip (first_line s) in
    (String.length line <= 80 /\ m = line) \/
    (80 < String.length line /\ m = substring 0 77 line ++ "...").
Proof.
  unfold get_first_line. destruct (negb (truthy v)).
  - intros [= <-]. auto.
  - destruct v; try discriminate.
    destruct (Nat.ltb_spec 80 (String.length (strip (first_line s))));
      intros [= <-]; right; exists s; split; auto.
Qed.

(** X1.  Whatever value the message is, the line that [get_first_line]
    returns has at most 80 characters, holds no newline and carries no
    whitespace at either end. *)
Theorem get_first_line_bounds (v : json) (m : string) :
  get_first_line v = Ok m ->
  String.length m <= 80 /\ contains NL m = false /\ trimmed m.
Proof.
  intro H. apply get_first_line_cases in H as [->|(s & _ & H)].
  - split; [simpl; lia|]. split; [reflexivity | apply trimmed_empty].
  - cbv zeta in H.
    assert (NoNL : contains NL (strip (first_line s)) = false)
      by (apply strip_contains, first_line_spec).
    destruct (strip_spec (first_line s)) as (_ & _ & _ & _ & _ & T).
    destruct H as [(L & ->)|(L & ->)]; [auto|].
    destruct (substring_0_prefix 77 (strip (first_line s))) as [tl E].
    assert (L77 : String.length (substring 0 77 (strip (first_line s))) = 77)
      by (apply length_substring_0; lia).
    split; [rewrite length_append; simpl; lia|]. split.
    + rewrite E, contains_append in NoNL.
      apply orb_false_elim in NoNL as [N1 _].
      rewrite contains_append, N1. reflexivity.
    + destruct T as [Tf _]. split.
      * intros c Hc. apply Tf. rewrite E.
        destruct (substring 0 77 (strip (first_line s))); [discriminate|].
        exact Hc.
      * intros c Hc. rewrite last_char_append_nonempty in Hc by discriminate.
        injection Hc as <-. reflexivity.
Qed.

Lemma get_first_line_bounds_witness :
  String.length "Fix bug" <= 80 /\ contains NL "Fix bug" = false /\
  trimmed "Fix bug".
Proof.
  apply (get_first_line_bounds
           (JStr ("  Fix bug " ++ nl ++ "Details"))). reflexivity.
Defined.

(** X2.  Shortening is idempotent: the line that [get_first_line]
    returns is returned unchanged when it is given back as a message. *)
Theorem get_first_line_idempotent (v : json) (m : string) :
  get_first_line v = Ok m -> get_first_line (JStr m) = Ok m.
Proof.
  intro H. destruct (get_first_line_bounds v m H) as (L & N & T).
  unfold get_first_line. simpl truthy.
  destruct (String.eqb_spec m "") as [->|NE]; [reflexivity|]. simpl.
  rewrite (first_line_no_newline m N), (strip_trimmed m T).
  apply Nat.ltb_ge in L. rewrite L. reflexivity.
Qed.

Lemma get_first_line_idempotent_witness :
  get_first_line (JStr "Fix bug") = Ok "Fix bug".
Proof.
  apply (get_first_line_idempotent
           (JStr ("  Fix bug " ++ nl ++ "Details"))). reflexivity.
Defined.

(** ** format_body *)

(** X3.  For a body that is a string, the lines of the blockquote are
    the indent and [> ] before each piece of the stripped body; no piece
    holds a newline, and joining the pieces with newlines gives the
    stripped body back.  A blank body gives no line at all. *)
Theorem format_body_round_trip (s indent : string) :
  exists pieces,
    format_body (JStr s) indent
    = Ok (map (fun line => indent ++ "> " ++ line) pieces) /\
    Forall (fun piece => contains NL piece = false) pieces /\
    (strip s = "" -> pieces = []) /\
    (strip s <> "" -> join nl pieces = strip s).
Proof.
  rewrite (format_body_str no_repr).
  destruct (String.eqb_spec (strip s) "") as [E|N].
  - exists []. split; [reflexivity|]. split; [constructor|].
    split; [reflexivity | contradiction].
  - exists (split NL (strip s)). split; [reflexivity|].
    split; [apply split_no_sep|]. split; [contradiction|].
    intros _. apply join_split.
Qed.

(** X4.  Whitespace around the body, blank lines included, never shows
    in the blockquote: the body with any whitespace added at its two
    ends is rendered as the body itself. *)
Theorem format_body_ignores_surrounding_space (l s r indent : string) :
  all_space l = true -> all_space r = true ->
  format_body (JStr (l ++ s ++ r)) indent = format_body (JStr s) indent.
Proof.
  intros Hl Hr. rewrite !(format_body_str no_repr).
  rewrite (strip_surrounded l s r Hl Hr). reflexivity.
Qed.

Lemma format_body_ignores_surrounding_space_witness :
  format_body (JStr ((nl ++ "  ") ++ "line1" ++ (" " ++ nl))) "  "
  = format_body (JStr "line1") "  ".
Proof.
  apply (format_body_ignores_surrounding_space (nl ++ "  ") "line1"
           (" " ++ nl) "  "); reflexivity.
Defined.

(** X5.  A body that is neither a string nor false in Python's sense
    (a number, [true], a non-empty list or object) makes [format_body]
    raise AttributeError; a body that is false (null, [false], 0, empty)
    gives no line. *)
Theorem format_body_non_string (body : json) (indent : string) :
  (forall s, body <> JStr s) ->
  format_body body indent
  = if truthy body then Raise AttributeError else Ok [].
Proof.
  intro N. unfold format_body.
  destruct body; simpl; try reflexivity.
  - destruct b; reflexivity.
  - destruct (n =? 0)%Z; reflexivity.
  - exfalso. apply (N s). reflexivity.
  - destruct items; reflexivity.
  - destruct fields; reflexivity.
Qed.

Lemma format_body_non_string_witness :
  format_body (JNum 5) "  " = Raise AttributeError.
Proof.
  apply (format_body_non_string (JNum 5) "  "). discriminate.
Defined.

(** ** parse_date and format_date *)







(** ** The mapping that a classifier builds *)

Lemma group_append_records {A} (g : grouped A) (k : json) (r : A) :
  Permutation (all_records (group_append g k r)) (r :: all_records g).
Proof.
  unfold all_records.
  induction g as [|[k0 rs] g IH]; simpl; [apply Permutation_refl|].
  destruct (key_eqb k0 k); simpl.
  - rewrite <- app_assoc. simpl.
    apply Permutation_sym, Permutation_middle.
  - apply perm_trans with (app rs (r :: flat_map snd g)).
    + apply Permutation_app_head, IH.
    + apply Permutation_sym, Permutation_middle.
Qed.

Lemma total_length {A} (g : grouped A) :
  total g = List.length (all_records g).
Proof.
  unfold total, all_records. induction g as [|[k rs] g IH]; simpl; [auto|].
  rewrite length_app, IH. reflexivity.
Qed.

Lemma mapM_length {A B} (f : A -> outcome B) (l : list A) (r : list B) :
  mapM f l = Ok r -> List.length r = List.length l.
Proof.
  intro H. apply mapM_Ok_Forall2 in H. symmetry.
  apply (Forall2_length H).
Qed.

Lemma loop_mapM {A} (record : json -> outcome (json * A)) (data : list json) :
  forall g g', loop record g data = Ok g' ->
    exists recs, mapM record data = Ok recs /\
      Permutation (all_records g') (app (all_records g) (map snd recs)).
Proof.
  induction data as [|item data IH]; simpl; intros g g' H.
  - injection H as <-. exists []. split; [reflexivity|].
    rewrite app_nil_r. apply Permutation_refl.
  - inv_bind H. destruct (IH _ _ H) as (recs & -> & P).
    rewrite E. simpl. exists (v :: recs). split; [reflexivity|].
    apply (perm_trans P). simpl.
    apply perm_trans
      with (app (snd v :: all_records g) (map snd recs)).
    + apply Permutation_app_tail, group_append_records.
    + simpl. apply Permutation_middle.
Qed.

Lemma sort_groups_records {A} (date : A -> option datetime) (g g' : grouped A) :
  sort_groups date g = Ok g' -> Permutation (all_records g') (all_records g).
Proof.
  intro H. apply sort_groups_spec in H. unfold all_records.
  induction H as [|kv kv' g g' (_ & P & _) F IH]; simpl; [constructor|].
  apply Permutation_app; [apply Permutation_sym, P | exact IH].
Qed.

Lemma classify_files_every_item {A} (record : json -> outcome (json * A))
    (date : A -> option datetime) :
  files_every_item record (classify record date).
Proof.
  intros data g H. unfold classify in H. inv_bind H.
  destruct (loop_mapM _ _ _ _ E) as (recs & Er & P).
  apply sort_groups_records in H.
  assert (P' : Permutation (all_records g) (map snd recs))
    by (apply (perm_trans H); exact P).
  exists recs. split; [exact Er|]. split; [exact P'|].
  rewrite total_length, (Permutation_length P'), length_map.
  apply (mapM_length _ _ _ Er).
Qed.

(** X8.  Each classifier files every raw item exactly once: when it
    returns, the records of its mapping are, up to their order, the
    normalized records of the items, none lost, none twice, none
    invented, and the total that the document shows is the number of
    items. *)
Theorem classifiers_file_every_item (fromisoformat : iso_parser) :
  files_every_item (commit_record fromisoformat)
                   (process_commits fromisoformat) /\
  files_every_item (issue_record fromisoformat)
                   (process_issues fromisoformat) /\
  files_every_item (pr_record fromisoformat)
                   (process_prs fromisoformat).
Proof.
  split; [|split]; apply classify_files_every_item.
Qed.

Lemma classifiers_file_every_item_witness :
  let data := [commit_item "r" None; commit_item "q" None;
               commit_item "r" None] in
  exists recs,
    mapM (commit_record iso_basic) data = Ok recs /\
    Permutation
      (all_records [(JStr "r", [Commit.mk None "Fix bug";
                                Commit.mk None "Fix bug"]);
                    (JStr "q", [Commit.mk None "Fix bug"])])
      (map snd recs) /\
    total [(JStr "r", [Commit.mk None "Fix bug"; Commit.mk None "Fix bug"]);
           (JStr "q", [Commit.mk None "Fix bug"])]
    = List.length data.
Proof.
  apply (proj1 (classifiers_file_every_item iso_basic)
           [commit_item "r" None; commit_item "q" None;
            commit_item "r" None]).
  vm_compute. reflexivity.
Defined.

(** *** Keys, groups and the place of a record *)

Lemma add_key_distinct (ks : list json) (k : json) :
  ForallOrdPairs (fun a b => key_eqb a b = false) ks ->
  ForallOrdPairs (fun a b => key_eqb a b = false) (add_key ks k).
Proof.
  induction 1 as [|k0 ks F N IH]; simpl.
  - repeat constructor.
  - destruct (key_eqb k0 k) eqn:E; [constructor; assumption|].
    constructor; [|exact IH].
    apply Forall_forall. intros x Hx.
    apply add_key_In in Hx as [Hx| ->]; [|exact E].
    rewrite Forall_forall in F. apply F, Hx.
Qed.

Lemma group_append_nonempty {A} (g : grouped A) (k : json) (r : A) :
  Forall (fun kv => snd kv <> []) g ->
  Forall (fun kv => snd kv <> []) (group_append g k r).
Proof.
  induction 1 as [|[k0 rs] g H F IH]; simpl.
  - repeat constructor. discriminate.
  - destruct (key_eqb k0 k); constructor; auto.
    simpl. destruct rs; discriminate.
Qed.

Lemma group_append_In_key {A} (g : grouped A) (repo k : json) (r x : A)
    (rs : list A) :
  In (k, rs) (group_append g repo r) -> In x rs ->
  (exists rs0, In (k, rs0) g /\ In x rs0) \/
  (x = r /\ (k = repo \/ key_eqb k repo = true)).
Proof.
  induction g as [|[k0 rs0] g IH]; simpl.
  - intros [[= <- <-]|[]] [<-|[]]. right. auto.
  - destruct (key_eqb k0 repo) eqn:Ek; simpl.
    + intros [[= <- <-]|Hin] Hx.
      * apply in_app_or in Hx as [Hx|[<-|[]]]; [left|right; auto].
        exists rs0. auto.
      * left. exists rs. auto.
    + intros [[= <- <-]|Hin] Hx.
      * left. exists rs0. auto.
      * destruct (IH Hin Hx) as [(rs1 & H1 & H2)|Hr]; [left|right; auto].
        exists rs1. auto.
Qed.

Lemma loop_well_grouped {A} (record : json -> outcome (json * A))
    (data : list json) :
  forall g g', loop record g data = Ok g' ->
    (ForallOrdPairs (fun a b => key_eqb a b = false) (map fst g) ->
     ForallOrdPairs (fun a b => key_eqb a b = false) (map fst g')) /\
    (Forall (fun kv => snd kv <> []) g ->
     Forall (fun kv => snd kv <> []) g') /\
    (forall k rs x, In (k, rs) g' -> In x rs ->
       (exists rs0, In (k, rs0) g /\ In x rs0) \/
       (exists item k', In item data /\ record item = Ok (k', x) /\
                        (k = k' \/ key_eqb k k' = true))).
Proof.
  induction data as [|item data IH]; simpl; intros g g' H.
  - injection H as <-. repeat split; auto. intros k rs x Hin Hx.
    left. exists rs. auto.
  - inv_bind H. destruct v as [k' r]. simpl in H.
    destruct (IH _ _ H) as (D & N & W). split; [|split].
    + intro Dg. apply D. rewrite group_append_keys.
      apply add_key_distinct, Dg.
    + intro Ng. apply N, group_append_nonempty, Ng.
    + intros k rs x Hin Hx.
      destruct (W k rs x Hin Hx) as [(rs0 & H0 & Hx0)|(it & k2 & Hi & E2 & Hk)].
      * destruct (group_append_In_key _ _ _ _ _ _ H0 Hx0)
          as [Hl|(-> & Hk)]; [left; exact Hl|].
        right. exists item, k'. auto.
      * right. exists it, k2. auto.
Qed.

Lemma classify_well_grouped {A} (record : json -> outcome (json * A))
    (date : A -> option datetime) :
  well_grouped record (classify record date).
Proof.
  intros data g H. unfold classify in H. inv_bind H.
  destruct (loop_well_grouped _ _ _ _ E) as (D & N & W).
  pose proof (sort_groups_keys _ _ _ _ H) as Ek.
  apply sort_groups_spec in H. split; [|split].
  - rewrite Ek. apply D. constructor.
  - specialize (N (Forall_nil _)). clear - H N.
    induction H as [|kv kv' g g' (_ & P & _) F IH]; [constructor|].
    apply Forall_cons_iff in N as [Hn N]. constructor; [|apply IH, N].
    intro Z. rewrite Z in P. apply Permutation_sym, Permutation_nil in P.
    contradiction.
  - intros k rs x Hin Hx.
    assert (exists rs0, In (k, rs0) v /\ In x rs0) as (rs0 & H0 & Hx0).
    { clear - H Hin Hx.
      induction H as [|[k1 r1] [k2 r2] g1 g2 (Ek & P & _) F IH];
        simpl in *; [tauto|].
      destruct Hin as [[= -> ->]|Hin].
      - exists r1. subst. split; [left; reflexivity|].
        eapply Permutation_in; [apply Permutation_sym, P | exact Hx].
      - destruct (IH Hin) as (rs0 & ? & ?). exists rs0. auto. }
    destruct (W k rs0 x H0 Hx0) as [(? & [] & _)|?]. assumption.
Qed.

(** X9.  The mapping that a classifier returns is well formed: no two
    of its keys are equal, none of its groups is empty, and every
    record stands under the repository identifier of the raw item it
    comes from. *)
Theorem classifiers_group_by_repository (fromisoformat : iso_parser) :
  well_grouped (commit_record fromisoformat)
               (process_commits fromisoformat) /\
  well_grouped (issue_record fromisoformat)
               (process_issues fromisoformat) /\
  well_grouped (pr_record fromisoformat)
               (process_prs fromisoformat).
Proof.
  split; [|split]; apply classify_well_grouped.
Qed.

Lemma classifiers_group_by_repository_witness :
  let data := [commit_item "r" None; commit_item "q" None;
               commit_item "r" None] in
  let g := [(JStr "r", [Commit.mk None "Fix bug"; Commit.mk None "Fix bug"]);
            (JStr "q", [Commit.mk None "Fix bug"])] in
  ForallOrdPairs (fun a b => key_eqb a b = false) (map fst g) /\
  Forall (fun kv => snd kv <> []) g /\
  (forall k rs r, In (k, rs) g -> In r rs ->
     exists item k', In item data /\
                     commit_record iso_basic item = Ok (k', r) /\
                     (k = k' \/ key_eqb k k' = true)).
Proof.
  apply (proj1 (classifiers_group_by_repository iso_basic)
           [commit_item "r" None; commit_item "q" None;
            commit_item "r" None]).
  vm_compute. reflexivity.
Defined.

(** ** Stability and failure of the sort *)

Lemma same_instant_spec (a b : datetime) :
  same_instant a b = true <-> not_earlier a b /\ not_earlier b a.
Proof.
  unfold same_instant, not_earlier.
  destruct (dt_lt a b) as [[|]|e], (dt_lt b a) as [[|]|e'];
    split; try discriminate; try tauto;
    intros [H1 H2]; try discriminate; congruence.
Qed.

Lemma dt_lt_raise (a b : datetime) (e : exn) :
  dt_lt a b = Raise e -> e = TypeError.
Proof.
  unfold dt_lt. destruct (utcoffset a), (utcoffset b); congruence.
Qed.

Section SortMore.
Variable A : Type.
Variable date : A -> option datetime.

Lemma insert_desc_ties (x : A) (l r : list A) :
  insert_desc date x l = Ok r ->
  forall d,
    filter (fun z => same_instant d (sort_key (date z))) r
    = filter (fun z => same_instant d (sort_key (date z))) (x :: l).
Proof.
  revert r; induction l as [|y l IH]; simpl; intros r H d.
  - injection H as <-. reflexivity.
  - inv_bind H. destruct v.
    + inv_bind H. injection H as <-. simpl. rewrite (IH _ E0 d). simpl.
      destruct (same_instant d (sort_key (date x))) eqn:Tx,
               (same_instant d (sort_key (date y))) eqn:Ty; try reflexivity.
      exfalso.
      apply same_instant_spec in Tx as [_ Hx], Ty as [Hy _].
      pose proof (not_earlier_trans _ _ _ Hx Hy) as N.
      unfold not_earlier in N. congruence.
    + injection H as <-. reflexivity.
Qed.

Lemma sort_by_date_desc_ties (l r : list A) :
  sort_by_date_desc date l = Ok r -> same_order_of_ties date l r.
Proof.
  revert r; induction l as [|x l IH]; simpl; intros r H d.
  - injection H as <-. reflexivity.
  - inv_bind H. rewrite (insert_desc_ties _ _ _ H d). simpl.
    rewrite (IH _ E d). reflexivity.
Qed.

Lemma insert_desc_raise (x : A) (l : list A) (e : exn) :
  insert_desc date x l = Raise e -> e = TypeError.
Proof.
  induction l as [|y l IH]; simpl; [discriminate|].
  destruct (dt_lt _ _) as [[|]|e'] eqn:E; simpl.
  - destruct (insert_desc date x l); [discriminate|].
    simpl. intros [= <-]. apply IH. reflexivity.
  - discriminate.
  - intros [= <-]. apply dt_lt_raise in E. exact E.
Qed.

Lemma sort_by_date_desc_raise (l : list A) (e : exn) :
  sort_by_date_desc date l = Raise e -> e = TypeError.
Proof.
  induction l as [|x l IH]; simpl; [discriminate|].
  destruct (sort_by_date_desc date l) as [s|e']; simpl.
  - apply insert_desc_raise.
  - intros [= <-]. apply IH. reflexivity.
Qed.

(** A list that holds a record without a date and a record with an
    offset-aware date cannot be sorted. *)
Lemma sort_undated_with_aware (l : list A) (x y : A) (d : datetime) (off : Z) :
  In x l -> In y l ->
  date x = None -> date y = Some d -> utcoffset d = Some off ->
  sort_by_date_desc date l = Raise TypeError.
Proof.
  intros Hx Hy Ex Ey Ed.
  destruct (sort_by_date_desc date l) as [r|e] eqn:E.
  - exfalso.
    pose proof (sort_by_date_desc_perm _ _ _ _ E) as P.
    pose proof (sort_by_date_desc_sorted _ _ _ _ E) as S.
    pose proof (StronglySorted_before _ _ S) as B. cbv beta in B.
    assert (N : x <> y) by congruence.
    apply (Permutation_in _ P) in Hx, Hy.
    destruct (before_total x y r Hx Hy N) as [H|H]; apply B in H;
      rewrite Ex, Ey in H; unfold not_earlier, dt_lt in H; simpl in H;
      rewrite Ed in H; discriminate.
  - f_equal. eapply sort_by_date_desc_raise, E.
Qed.

Lemma sort_groups_raise (g : grouped A) (e : exn) :
  sort_groups date g = Raise e -> e = TypeError.
Proof.
  unfold sort_groups. induction g as [|[k rs] g IH]; simpl; [discriminate|].
  destruct (sort_by_date_desc date rs) as [s|e'] eqn:E; simpl.
  - destruct (mapM _ g) as [t|e']; simpl; [discriminate|].
    intros [= <-]. apply IH. reflexivity.
  - intros [= <-]. eapply sort_by_date_desc_raise, E.
Qed.

Lemma sort_groups_raises_in (g : grouped A) (k : json) (rs : list A) :
  In (k, rs) g -> sort_by_date_desc date rs = Raise TypeError ->
  sort_groups date g = Raise TypeError.
Proof.
  intros Hin R. unfold sort_groups.
  induction g as [|[k0 rs0] g IH]; simpl in *; [tauto|].
  destruct Hin as [[= -> ->]|Hin].
  - rewrite R. reflexivity.
  - destruct (sort_by_date_desc date rs0) as [s|e] eqn:E; simpl.
    + rewrite (IH Hin). reflexivity.
    + f_equal. eapply sort_by_date_desc_raise, E.
Qed.
End SortMore.

(** ** The classifiers: stability, success and failure *)

Lemma sort_groups_ties {A} (date : A -> option datetime) (g g' : grouped A) :
  sort_groups date g = Ok g' ->
  Forall2 (fun kv kv' => fst kv = fst kv' /\
                         Permutation (snd kv) (snd kv') /\
                         same_order_of_ties date (snd kv) (snd kv')) g g'.
Proof.
  intro H. apply mapM_Ok_Forall2 in H.
  induction H as [|kv kv' g g' H F IH]; constructor; auto.
  inv_bind H. injection H as <-. simpl. split; [reflexivity|].
  split; [eapply sort_by_date_desc_perm | eapply sort_by_date_desc_ties];
    exact E.
Qed.

Lemma classify_sorts_stably {A} (record : json -> outcome (json * A))
    (date : A -> option datetime) :
  sorts_stably record date (classify record date).
Proof.
  intros data g H. unfold classify in H. inv_bind H.
  exists v. split; [exact E|]. apply sort_groups_ties, H.
Qed.

(** X10.  The sort of each classifier is stable: every group of the
    mapping it returns holds the records that the loop appended to it,
    and the records of one group that share an instant stand in the
    order of their appends, which is the order of the raw items. *)
Theorem classifiers_sort_stably (fromisoformat : iso_parser) :
  sorts_stably (commit_record fromisoformat) Commit.date
               (process_commits fromisoformat) /\
  sorts_stably (issue_record fromisoformat) Issue.date
               (process_issues fromisoformat) /\
  sorts_stably (pr_record fromisoformat) PR.date
               (process_prs fromisoformat).
Proof.
  split; [|split]; apply classify_sorts_stably.
Qed.

Lemma classifiers_sort_stably_witness :
  exists g0,
    loop (issue_record iso_basic) []
      [issue_item "o/r" (Some "2025-11-20T10:00:00Z");
       issue_item "o/r" (Some "2025-11-20T11:00:00+01:00")]
    = Ok g0 /\
    Forall2 (fun kv kv' => fst kv = fst kv' /\
                           Permutation (snd kv) (snd kv') /\
                           same_order_of_ties Issue.date (snd kv) (snd kv'))
      g0
      [(JStr "o/r",
        [Issue.mk (JStr "Bug") "open"
           (iso_basic "2025-11-20T10:00:00+00:00") (JStr "") (JStr "");
         Issue.mk (JStr "Bug") "open"
           (iso_basic "2025-11-20T11:00:00+01:00") (JStr "") (JStr "")])].
Proof.
  apply (proj1 (proj2 (classifiers_sort_stably iso_basic))
           [issue_item "o/r" (Some "2025-11-20T10:00:00Z");
            issue_item "o/r" (Some "2025-11-20T11:00:00+01:00")]).
  vm_compute. reflexivity.
Defined.

Lemma loop_total {A} (record : json -> outcome (json * A)) (data : list json) :
  (forall item, In item data -> exists kr, record item = Ok kr) ->
  forall g, exists g', loop record g data = Ok g'.
Proof.
  induction data as [|item data IH]; simpl; intros H g; [eauto|].
  destruct (H item (or_introl eq_refl)) as [kr ->]. simpl.
  apply IH. intros it Hi. apply H. auto.
Qed.

Lemma sort_groups_total {A} (date : A -> option datetime) (aware : bool)
    (g : grouped A) :
  (forall k rs r, In (k, rs) g -> In r rs -> key_kind date aware r) ->
  exists g', sort_groups date g = Ok g'.
Proof.
  unfold sort_groups. induction g as [|[k rs] g IH]; simpl; intro H; [eauto|].
  destruct (sort_by_date_desc_total _ date aware rs) as [s ->].
  { intros y Hy. apply (H k rs y); auto. }
  simpl. destruct IH as [g' ->].
  { intros k' rs' r Hin Hr. apply (H k' rs' r); auto. }
  simpl. eauto.
Qed.

Lemma classify_returns_on_one_kind {A} (record : json -> outcome (json * A))
    (date : A -> option datetime) :
  returns_on_one_kind record date (classify record date).
Proof.
  intros data aware H. unfold classify.
  destruct (loop_total record data) with (g := @nil (json * list A))
    as [g0 E].
  { intros item Hi. destruct (H item Hi) as (k & r & Er & _). eauto. }
  rewrite E. simpl. apply (sort_groups_total date aware).
  intros k rs r Hin Hr.
  destruct (loop_records _ _ _ _ E _ _ _ Hin Hr)
    as [(? & [] & _)|(item & k' & Hi & Er)].
  destruct (H item Hi) as (k2 & r2 & Er2 & K).
  rewrite Er in Er2. injection Er2 as _ <-. exact K.
Qed.

(** X11.  A classifier returns a mapping whenever every raw item gives a
    record and the sort keys are all of one kind: every record has an
    offset-aware date, or every record has a naive date or none. *)
Theorem classifiers_return_on_one_kind (fromisoformat : iso_parser) :
  returns_on_one_kind (commit_record fromisoformat) Commit.date
                      (process_commits fromisoformat) /\
  returns_on_one_kind (issue_record fromisoformat) Issue.date
                      (process_issues fromisoformat) /\
  returns_on_one_kind (pr_record fromisoformat) PR.date
                      (process_prs fromisoformat).
Proof.
  split; [|split]; apply classify_returns_on_one_kind.
Qed.

Lemma classifiers_return_on_one_kind_witness :
  exists g,
    process_commits iso_basic
      [commit_item "r" (Some "2025-11-20T10:00:00Z");
       commit_item "r" (Some "2025-11-21T09:30:00-08:00")]
    = Ok g.
Proof.
  apply (proj1 (classifiers_return_on_one_kind iso_basic)
           [commit_item "r" (Some "2025-11-20T10:00:00Z");
            commit_item "r" (Some "2025-11-21T09:30:00-08:00")] true).
  intros item [<-|[<-|[]]]; eexists; eexists;
    (split; [vm_compute; reflexivity | discriminate]).
Defined.

Lemma group_append_keeps {A} (g : grouped A) (repo k : json) (r x : A)
    (rs : list A) :
  In (k, rs) g -> In x rs ->
  exists rs', In (k, rs') (group_append g repo r) /\ In x rs'.
Proof.
  induction g as [|[k0 rs0] g IH]; simpl; [tauto|].
  intros [[= -> ->]|Hin] Hx.
  - destruct (key_eqb k repo).
    + exists (app rs [r]). split; [left; reflexivity|].
      apply in_or_app. auto.
    + exists rs. split; [left; reflexivity | exact Hx].
  - destruct (key_eqb k0 repo).
    + exists rs. split; [right; exact Hin | exact Hx].
    + destruct (IH Hin Hx) as (rs' & H1 & H2).
      exists rs'. split; [right; exact H1 | exact H2].
Qed.

Lemma group_append_files {A} (g : grouped A) (repo : json) (r : A) :
  exists k0 rs, In (k0, rs) (group_append g repo r) /\ In r rs /\
                (key_eqb k0 repo = true \/ k0 = repo).
Proof.
  induction g as [|[k0 rs0] g (k1 & rs & H1 & H2 & H3)]; simpl.
  - exists repo, [r]. simpl. auto.
  - destruct (key_eqb k0 repo) eqn:E.
    + exists k0, (app rs0 [r]). split; [left; reflexivity|].
      split; [apply in_or_app; simpl; auto | auto].
    + exists k1, rs. split; [right; exact H1 | auto].
Qed.

Lemma loop_keeps {A} (record : json -> outcome (json * A)) (data : list json) :
  forall g g', loop record g data = Ok g' ->
  forall k rs x, In (k, rs) g -> In x rs ->
    exists rs', In (k, rs') g' /\ In x rs'.
Proof.
  induction data as [|item data IH]; simpl; intros g g' H k rs x Hin Hx.
  - injection H as <-. exists rs. auto.
  - inv_bind H.
    destruct (group_append_keeps g (fst v) k (snd v) x rs Hin Hx)
      as (rs' & H1 & H2).
    apply (IH _ _ H k rs' x H1 H2).
Qed.

Lemma loop_files {A} (record : json -> outcome (json * A)) (data : list json) :
  forall g g', loop record g data = Ok g' ->
  forall item s r, In item data -> record item = Ok (JStr s, r) ->
    exists rs, In (JStr s, rs) g' /\ In r rs.
Proof.
  induction data as [|it data IH]; simpl; intros g g' H item s r Hi E;
    [tauto|].
  inv_bind H. destruct Hi as [->|Hi]; [|eapply IH; eassumption].
  rewrite E in E0. injection E0 as <-. simpl in H.
  destruct (group_append_files g (JStr s) r) as (k0 & rs & H1 & H2 & H3).
  assert (k0 = JStr s) as ->
    by (destruct H3 as [H3|H3]; [apply key_eqb_str_r in H3|]; exact H3).
  apply (loop_keeps _ _ _ _ H _ _ _ H1 H2).
Qed.

Lemma unique_group {A} (g : grouped A) (k : json) (rs1 rs2 : list A) :
  ForallOrdPairs (fun a b => key_eqb a b = false) (map fst g) ->
  key_eqb k k = true ->
  In (k, rs1) g -> In (k, rs2) g -> rs1 = rs2.
Proof.
  intros D R. induction g as [|[k0 rs0] g IH]; simpl; [tauto|].
  simpl in D. inversion D as [|? ? F D']; subst.
  rewrite Forall_forall in F.
  assert (Out : forall rs, In (k, rs) g -> k0 <> k).
  { intros rs Hin ->. apply (in_map fst) in Hin. simpl in Hin.
    apply F in Hin. congruence. }
  intros [Q1|H1] [Q2|H2].
  - congruence.
  - exfalso. apply (Out rs2 H2). congruence.
  - exfalso. apply (Out rs1 H1). congruence.
  - apply IH; assumption.
Qed.

Lemma classify_raises_on_undated_with_aware {A}
    (record : json -> outcome (json * A)) (date : A -> option datetime) :
  raises_on_undated_with_aware record date (classify record date).
Proof.
  intros data item1 item2 repo r1 r2 d off Hall H1 H2 E1 E2 D1 D2 Off.
  unfold classify.
  destruct (loop_total record data Hall []) as [g0 E].
  rewrite E. simpl.
  destruct (loop_files _ _ _ _ E _ _ _ H1 E1) as (rs1 & G1 & R1).
  destruct (loop_files _ _ _ _ E _ _ _ H2 E2) as (rs2 & G2 & R2).
  assert (rs1 = rs2) as <-.
  { apply (unique_group g0 (JStr repo)); auto.
    - apply (loop_well_grouped _ _ _ _ E). constructor.
    - simpl. apply String.eqb_refl. }
  apply (sort_groups_raises_in _ date g0 (JStr repo) rs1 G1).
  apply (sort_undated_with_aware _ date rs1 r1 r2 d off); assumption.
Qed.

(** X12.  The failure of the sort in general: when every raw item gives
    a record and one repository has an item without a date and an item
    with an offset-aware date, the classifier raises TypeError, in
    whatever order and among whatever other items the two stand. *)
Theorem classifiers_raise_on_undated_with_aware (fromisoformat : iso_parser) :
  raises_on_undated_with_aware (commit_record fromisoformat) Commit.date
                               (process_commits fromisoformat) /\
  raises_on_undated_with_aware (issue_record fromisoformat) Issue.date
                               (process_issues fromisoformat) /\
  raises_on_undated_with_aware (pr_record fromisoformat) PR.date
                               (process_prs fromisoformat).
Proof.
  split; [|split]; apply classify_raises_on_undated_with_aware.
Qed.

Lemma classifiers_raise_on_undated_with_aware_witness :
  process_issues iso_basic
    [issue_item "o/q" None; issue_item "o/r" None;
     issue_item "o/r" (Some "2025-11-20T10:00:00Z")]
  = Raise TypeError.
Proof.
  apply (proj1 (proj2 (classifiers_raise_on_undated_with_aware iso_basic))
           [issue_item "o/q" None; issue_item "o/r" None;
            issue_item "o/r" (Some "2025-11-20T10:00:00Z")]
           (issue_item "o/r" None)
           (issue_item "o/r" (Some "2025-11-20T10:00:00Z"))
           "o/r"
           (Issue.mk (JStr "Bug") "open" None (JStr "") (JStr ""))
           (Issue.mk (JStr "Bug") "open"
              (iso_basic "2025-11-20T10:00:00+00:00") (JStr "") (JStr ""))
           (mkdt 2025 11 20 10 0 0 0 (Some 0%Z)) 0%Z).
  - intros item [<-|[<-|[<-|[]]]]; eexists; vm_compute; reflexivity.
  - simpl. auto.
  - simpl. auto.
  - vm_compute. reflexivity.
  - vm_compute. reflexivity.
  - reflexivity.
  - vm_compute. reflexivity.
  - reflexivity.
Defined.

(** ** C2: what the sort of a classifier achieves *)






(** ** The repository identifier and the defaults of a record *)

Lemma py_get_obj (fields : list (string * json)) (k : string) (d : json) :
  py_get (JObj fields) k d
  = Ok (match assoc k fields with Some v => v | None => d end).
Proof. unfold py_get. destruct (assoc k fields); reflexivity. Qed.

(** X13.  The repository identifier of a raw item.  For an issue or a
    pull request it is the [nameWithOwner] of the [repository] object
    when it has one, else its [name], else the word [unknown]; for a
    commit it is the [name], else [unknown], whatever [nameWithOwner]
    is; an item without a [repository] is filed under [unknown]; and a
    [repository] that is not an object (null, for one) raises
    AttributeError. *)
Theorem repository_identifier_law (fromisoformat : iso_parser)
    (fields : list (string * json)) :
  (assoc "repository" fields = None ->
     repo_with_owner (JObj fields) = Ok (JStr "unknown") /\
     forall k r, commit_record fromisoformat (JObj fields) = Ok (k, r) ->
                 k = JStr "unknown") /\
  (forall rf, assoc "repository" fields = Some (JObj rf) ->
     repo_with_owner (JObj fields)
     = Ok (match assoc "nameWithOwner" rf with
           | Some v => v
           | None => match assoc "name" rf with
                     | Some v => v
                     | None => JStr "unknown"
                     end
           end) /\
     forall k r, commit_record fromisoformat (JObj fields) = Ok (k, r) ->
                 k = match assoc "name" rf with
                     | Some v => v
                     | None => JStr "unknown"
                     end) /\
  (forall v, assoc "repository" fields = Some v -> is_object v = false ->
     repo_with_owner (JObj fields) = Raise AttributeError /\
     commit_record fromisoformat (JObj fields) = Raise AttributeError) /\
  (forall k r, issue_record fromisoformat (JObj fields) = Ok (k, r) ->
     repo_with_owner (JObj fields) = Ok k) /\
  (forall k r, pr_record fromisoformat (JObj fields) = Ok (k, r) ->
     repo_with_owner (JObj fields) = Ok k).
Proof.
  split; [|split; [|split; [|split]]].
  - intro E. split.
    + unfold repo_with_owner. rewrite !py_get_obj, E. reflexivity.
    + intros k r H. unfold commit_record in H.
      rewrite (py_get_obj fields "repository"), E in H. cbn [bind] in H.
      rewrite py_get_obj in H. cbn [assoc bind] in H.
      repeat inv_bind H. congruence.
  - intros rf E. split.
    + unfold repo_with_owner. rewrite !py_get_obj, E. cbn [bind].
      rewrite !py_get_obj. cbn [bind]. rewrite !py_get_obj. reflexivity.
    + intros k r H. unfold commit_record in H.
      rewrite (py_get_obj fields "repository"), E in H. cbn [bind] in H.
      rewrite py_get_obj in H. cbn [bind] in H.
      repeat inv_bind H. congruence.
  - intros v E N. split.
    + unfold repo_with_owner. rewrite !py_get_obj, E. cbn [bind].
      destruct v; try reflexivity; discriminate.
    + unfold commit_record. rewrite (py_get_obj fields "repository"), E.
      cbn [bind]. destruct v; try reflexivity; discriminate.
  - intros k r H. unfold issue_record in H.
    destruct (repo_with_owner (JObj fields)) as [k0|e]; [|discriminate].
    cbn [bind] in H. repeat inv_bind H. congruence.
  - intros k r H. unfold pr_record in H.
    destruct (repo_with_owner (JObj fields)) as [k0|e]; [|discriminate].
    cbn [bind] in H. repeat inv_bind H. congruence.
Qed.

(** X14.  The defaults of a partial item: an object that has none of
    the keys a classifier reads gives the record of the defaults under
    the identifier [unknown]: no date, and the empty string for the
    message, the title, the state, the url and the body. *)
Theorem missing_keys_take_defaults (fromisoformat : iso_parser)
    (fields : list (string * json)) :
  (assoc "repository" fields = None -> assoc "commit" fields = None ->
   commit_record fromisoformat (JObj fields)
   = Ok (JStr "unknown", Commit.mk None "")) /\
  (assoc "repository" fields = None -> assoc "createdAt" fields = None ->
   assoc "title" fields = None -> assoc "state" fields = None ->
   assoc "url" fields = None -> assoc "body" fields = None ->
   issue_record fromisoformat (JObj fields)
   = Ok (JStr "unknown", Issue.mk (JStr "") "" None (JStr "") (JStr "")) /\
   pr_record fromisoformat (JObj fields)
   = Ok (JStr "unknown",
         PR.mk (JStr "") "" None (JStr "") false (JStr ""))).
Proof.
  split.
  - intros E1 E2. unfold commit_record.
    rewrite !(py_get_obj fields), E1, E2. reflexivity.
  - intros E1 E2 E3 E4 E5 E6. unfold issue_record, pr_record, repo_with_owner.
    rewrite !(py_get_obj fields), E1, E2, E3, E4, E5, E6. split; reflexivity.
Qed.

Lemma missing_keys_take_defaults_witness :
  commit_record iso_basic (JObj [("sha", JStr "abc")])
  = Ok (JStr "unknown", Commit.mk None "") /\
  issue_record iso_basic (JObj [("number", JNum 7)])
  = Ok (JStr "unknown", Issue.mk (JStr "") "" None (JStr "") (JStr "")).
Proof.
  split.
  - apply (proj1 (missing_keys_take_defaults iso_basic
                    [("sha", JStr "abc")])); reflexivity.
  - apply (proj2 (missing_keys_take_defaults iso_basic
                    [("number", JNum 7)])); reflexivity.
Defined.

(** ** Items and collections of the wrong shape *)

Lemma record_non_object (fromisoformat : iso_parser) (item : json) :
  is_object item = false ->
  commit_record fromisoformat item = Raise AttributeError /\
  issue_record fromisoformat item = Raise AttributeError /\
  pr_record fromisoformat item = Raise AttributeError.
Proof.
  destruct item; try discriminate; intros _; repeat split; reflexivity.
Qed.

Lemma loop_raises_at {A} (record : json -> outcome (json * A))
    (before : list json) (item : json) (after : list json) (e : exn) :
  (forall i, In i before -> exists kr, record i = Ok kr) ->
  record item = Raise e ->
  forall g, loop record g (app before (item :: after)) = Raise e.
Proof.
  intros H R. induction before as [|i before IH]; simpl; intro g.
  - rewrite R. reflexivity.
  - destruct (H i (or_introl eq_refl)) as [kr ->]. simpl.
    apply IH. intros j Hj. apply H. right. exact Hj.
Qed.

(** X15.  An item that is not a JSON object (a string, a number, null, a
    list) makes each classifier raise AttributeError, wherever it stands
    behind items that give records. *)
Theorem classifiers_raise_on_non_object (fromisoformat : iso_parser) :
  raises_on_non_object (commit_record fromisoformat)
                       (process_commits fromisoformat) /\
  raises_on_non_object (issue_record fromisoformat)
                       (process_issues fromisoformat) /\
  raises_on_non_object (pr_record fromisoformat)
                       (process_prs fromisoformat).
Proof.
  split; [|split]; intros before item after H N;
    destruct (record_non_object fromisoformat item N) as (R1 & R2 & R3);
    unfold process_commits, process_issues, process_prs, classify;
    erewrite loop_raises_at; try reflexivity; eassumption.
Qed.

Lemma classifiers_raise_on_non_object_witness :
  process_commits iso_basic
    (app [commit_item "r" None] (JNull :: [commit_item "r" None]))
  = Raise AttributeError.
Proof.
  apply (proj1 (classifiers_raise_on_non_object iso_basic)
           [commit_item "r" None] JNull [commit_item "r" None]).
  - intros i [<-|[]]. eexists. vm_compute. reflexivity.
  - reflexivity.
Defined.

(** X16.  A commits file whose top level is not a list.  A non-empty
    object is iterated by its keys and a non-empty string by its
    characters, which are strings, so the run raises AttributeError; a
    number or [true] is not iterable and the run raises TypeError.
    Whatever the other four collections are. *)
Theorem digest_raises_on_non_list (fromisoformat : iso_parser)
    (py_repr : json -> string)
    (strftime_Y : Z -> string) (ic im pc pr : json)
    (dir_name : string) (include_body : bool) :
  (forall f fields,
     digest fromisoformat py_repr strftime_Y (JObj (f :: fields)) ic im pc pr
       dir_name include_body = Raise AttributeError) /\
  (forall c s,
     digest fromisoformat py_repr strftime_Y (JStr (String c s)) ic im pc pr
       dir_name include_body = Raise AttributeError) /\
  (forall n,
     digest fromisoformat py_repr strftime_Y (JNum n) ic im pc pr
       dir_name include_body = Raise TypeError) /\
  (forall b,
     digest fromisoformat py_repr strftime_Y (JBool b) ic im pc pr
       dir_name include_body = Raise TypeError).
Proof.
  repeat split; intros; reflexivity.
Qed.

(** ** What the loader hands over *)

(** X17.  Whatever the file holds, a value that the loader hands over is
    either the empty list or a value that is true in Python's sense,
    never null, [false], 0 or an empty string or object; and an exception
    that it lets through is neither FileNotFoundError nor
    JSONDecodeError. *)
Theorem load_json_outcome (decode : json_decoder) (fs : filesystem)
    (filepath : string) :
  (forall v, load_json decode fs filepath = Ok v ->
     v = JArr [] \/ truthy v = true) /\
  (forall e, load_json decode fs filepath = Raise e ->
     e <> FileNotFoundError /\ e <> JSONDecodeError).
Proof.
  unfold load_json, open_read, json_load.
  destruct (fs filepath) as [|e0|text]; simpl.
  - split; [intros v [= <-]; auto | discriminate].
  - destruct e0; simpl; split;
      (intros x H; try discriminate; injection H as <-;
       auto; split; discriminate).
  - destruct (decode text) as [v0|]; simpl.
    + split; [|discriminate]. intros v [= <-].
      destruct (truthy v0) eqn:T; auto.
    + split; [intros v [= <-]; auto | discriminate].
Qed.

(** ** The period on dates that do not compare *)

Lemma min_from_raise (l : list datetime) :
  forall cur e, min_from cur l = Raise e -> e = TypeError.
Proof.
  induction l as [|x l IH]; simpl; intros cur e; [discriminate|].
  destruct (dt_lt x cur) as [b|e'] eqn:E; simpl.
  - apply IH.
  - intros [= <-]. eapply dt_lt_raise, E.
Qed.

Lemma not_earlier_same_kind (a b : datetime) :
  not_earlier a b ->
  (utcoffset a = None <-> utcoffset b = None).
Proof.
  unfold not_earlier, dt_lt.
  destruct (utcoffset a), (utcoffset b); try discriminate;
    intros _; split; congruence.
Qed.

Lemma period_of_mixed (strftime_Y : Z -> string) (dates : list datetime)
    (d1 d2 : datetime) (off : Z) :
  In d1 dates -> In d2 dates ->
  utcoffset d1 = None -> utcoffset d2 = Some off ->
  period_of strftime_Y dates = Raise TypeError.
Proof.
  intros H1 H2 O1 O2. unfold period_of.
  destruct dates as [|d0 l]; [contradiction|].
  unfold py_min. destruct (min_from d0 l) as [m|e] eqn:E; simpl.
  - exfalso. apply min_from_spec in E as (_ & Hc & Hall).
    assert (K : forall d, In d (d0 :: l) -> not_earlier d m)
      by (intros d [<-|Hd]; auto).
    pose proof (not_earlier_same_kind _ _ (K d1 H1)) as K1.
    pose proof (not_earlier_same_kind _ _ (K d2 H2)) as K2.
    assert (utcoffset d2 = None) by (apply K2, K1, O1). congruence.
  - f_equal. eapply min_from_raise, E.
Qed.

Lemma present_dates_In {A} (date : A -> option datetime) (g : grouped A)
    (k : json) (rs : list A) (r : A) (d : datetime) :
  In (k, rs) g -> In r rs -> date r = Some d -> In d (present_dates date g).
Proof.
  intros Hin Hr E. unfold present_dates.
  apply in_flat_map. exists (k, rs). split; [exact Hin|].
  apply in_flat_map. exists r. split; [exact Hr|]. rewrite E. left. reflexivity.
Qed.

(** X18.  The renderer raises TypeError when the dates it takes the
    period from, those of the commit and issues-created records, hold a
    naive and an offset-aware one: [min] cannot compare them.  The
    records may be of different repositories and of either collection. *)
Theorem generate_markdown_raises_on_mixed_dates (py_repr : json -> string)
    (strftime_Y : Z -> string)
    (commits : grouped Commit.t)
    (issues_created issues_commented : grouped Issue.t)
    (prs_created prs_reviewed : grouped PR.t)
    (dir_name : string) (include_body : bool)
    (d1 d2 : datetime) (off : Z) :
  let dates := app (present_dates Commit.date commits)
                   (present_dates Issue.date issues_created) in
  In d1 dates -> In d2 dates ->
  utcoffset d1 = None -> utcoffset d2 = Some off ->
  generate_markdown py_repr strftime_Y commits issues_created issues_commented
    prs_created prs_reviewed dir_name include_body = Raise TypeError.
Proof.
  intros dates H1 H2 O1 O2.
  unfold generate_markdown, generate_markdown_lines. fold dates.
  rewrite (period_of_mixed strftime_Y dates d1 d2 off H1 H2 O1 O2). reflexivity.
Qed.

Lemma generate_markdown_raises_on_mixed_dates_witness :
  generate_markdown no_repr pad4
    [(JStr "r", [Commit.mk (iso_basic "2025-11-21") "Fix bug"])]
    [(JStr "o/q",
      [Issue.mk (JStr "Bug") "open"
         (iso_basic "2025-11-20T10:00:00+00:00") (JStr "") (JStr "")])]
    [] [] [] "gh" false
  = Raise TypeError.
Proof.
  apply (generate_markdown_raises_on_mixed_dates no_repr pad4
           [(JStr "r", [Commit.mk (iso_basic "2025-11-21") "Fix bug"])]
           [(JStr "o/q",
             [Issue.mk (JStr "Bug") "open"
                (iso_basic "2025-11-20T10:00:00+00:00") (JStr "") (JStr "")])]
           [] [] [] "gh" false
           (mkdt 2025 11 21 0 0 0 0 None)
           (mkdt 2025 11 20 10 0 0 0 (Some 0%Z)) 0%Z).
  - left. reflexivity.
  - right. left. reflexivity.
  - reflexivity.
  - reflexivity.
Defined.

(** ** The shape of the document *)

Lemma append_empty_r (s : string) : s ++ "" = s.
Proof. induction s; simpl; congruence. Qed.

Lemma append_assoc (s t u : string) : (s ++ t) ++ u = s ++ t ++ u.
Proof. induction s; simpl; congruence. Qed.

Lemma join_snoc_empty (l : list string) :
  l <> [] -> join nl (app l [""]) = join nl l ++ nl.
Proof.
  induction l as [|x l IH]; [congruence|]. intros _.
  destruct l as [|y l].
  - reflexivity.
  - change (join nl (app (x :: y :: l) [""]))
      with (x ++ nl ++ join nl (app (y :: l) [""])).
    rewrite IH by discriminate.
    change (join nl (x :: y :: l)) with (x ++ nl ++ join nl (y :: l)).
    rewrite !append_assoc. reflexivity.
Qed.

Lemma ends_with_newline_append (s : string) :
  ends_with_newline (s ++ nl) = true.
Proof.
  unfold ends_with_newline.
  rewrite last_char_append_nonempty by discriminate. reflexivity.
Qed.

Lemma insert_key_length (x : json) (l r : list json) :
  insert_key x l = Ok r -> List.length r = S (List.length l).
Proof.
  revert r; induction l as [|y l IH]; simpl; intros r H.
  - injection H as <-. reflexivity.
  - inv_bind H. destruct v.
    + inv_bind H. injection H as <-. simpl. f_equal. apply IH. assumption.
    + injection H as <-. reflexivity.
Qed.

Lemma py_sorted_length (l r : list json) :
  py_sorted l = Ok r -> List.length r = List.length l.
Proof.
  revert r; induction l as [|x l IH]; simpl; intros r H.
  - injection H as <-. reflexivity.
  - inv_bind H. apply insert_key_length in H. rewrite H. f_equal.
    apply IH. assumption.
Qed.

Lemma concat_ends_blank (blocks : list (list string)) :
  blocks <> [] ->
  Forall (fun b => exists b', b = app b' [""]) blocks ->
  exists s', List.concat blocks = app s' [""].
Proof.
  induction blocks as [|b blocks IH]; [congruence|]. intros _ F.
  apply Forall_cons_iff in F as [(b' & ->) F].
  destruct blocks as [|c blocks].
  - exists b'. simpl. rewrite app_nil_r. reflexivity.
  - destruct (IH ltac:(discriminate) F) as (s' & E).
    exists (app (app b' [""]) s'). cbn [List.concat]. cbn [List.concat] in E.
    rewrite E, app_assoc. reflexivity.
Qed.

(** Every section ends with a blank line. *)
Lemma section_body_ends_blank {A} (py_repr : json -> string)
    (item_lines : A -> outcome (list string)) (g : grouped A)
    (s : list string) :
  section_body py_repr item_lines g = Ok s -> exists s', s = app s' [""].
Proof.
  unfold section_body. destruct g as [|kv g].
  - intros [= <-]. exists ["None"]. reflexivity.
  - intro H. inv_bind H. inv_bind H. injection H as <-.
    apply py_sorted_length in E. apply mapM_Ok_Forall2 in E0.
    apply concat_ends_blank.
    + intro Z. subst v0. inversion E0. subst v. discriminate.
    + clear E. induction E0 as [|k b ks bs H F IH]; constructor; auto.
      unfold repo_block in H. inv_bind H. injection H as <-.
      eexists (_ :: _). reflexivity.
Qed.

Lemma Ok_inj {A} (a b : A) : Ok a = Ok b -> a = b.
Proof. intros [= ->]. reflexivity. Qed.

(** The lines of a document: the metadata block and the title, then the
    five sections, each under its heading. *)
Lemma generate_markdown_lines_shape (py_repr : json -> string)
    (strftime_Y : Z -> string)
    (commits : grouped Commit.t)
    (issues_created issues_commented : grouped Issue.t)
    (prs_created prs_reviewed : grouped PR.t)
    (dir_name : string) (include_body : bool) (lines : list string) :
  generate_markdown_lines py_repr strftime_Y commits issues_created
    issues_commented
    prs_created prs_reviewed dir_name include_body = Ok lines ->
  exists period s1 s2 s3 s4 s5,
    section_body py_repr commit_lines commits = Ok s1 /\
    section_body py_repr (issue_created_lines py_repr include_body)
      issues_created = Ok s2 /\
    section_body py_repr (issue_commented_lines py_repr) issues_commented
    = Ok s3 /\
    section_body py_repr (pr_created_lines py_repr include_body) prs_created
    = Ok s4 /\
    section_body py_repr (pr_reviewed_lines py_repr) prs_reviewed = Ok s5 /\
    lines =
    List.concat
      [ [ "---";
          "period: " ++ period;
          "source: " ++ dir_name;
          "commits: " ++ str_of_nat (total commits);
          "issues_created: " ++ str_of_nat (total issues_created);
          "issues_commented: " ++ str_of_nat (total issues_commented);
          "prs_created: " ++ str_of_nat (total prs_created);
          "prs_reviewed: " ++ str_of_nat (total prs_reviewed);
          "---"; ""; "# Weekly GitHub Activity"; "" ];
        ["## Commits (" ++ str_of_nat (total commits) ++ ")"; ""]; s1;
        ["## Issues Created (" ++ str_of_nat (total issues_created) ++ ")";
         ""]; s2;
        ["## Issues Commented (" ++ str_of_nat (total issues_commented)
         ++ ")"; ""]; s3;
        ["## PRs Created (" ++ str_of_nat (total prs_created) ++ ")"; ""];
        s4;
        ["## PRs Reviewed (" ++ str_of_nat (total prs_reviewed) ++ ")"; ""];
        s5 ].
Proof.
  intro H. unfold generate_markdown_lines in H. do 6 inv_bind H.
  apply Ok_inj in H. exists v, v0, v1, v2, v3, v4.
  repeat (split; [assumption|]). symmetry. exact H.
Qed.

(** X19.  Every document that the renderer returns ends with a newline:
    its last line is the blank line that closes the PRs Reviewed
    section. *)
Theorem document_ends_with_newline (py_repr : json -> string)
    (strftime_Y : Z -> string)
    (commits : grouped Commit.t)
    (issues_created issues_commented : grouped Issue.t)
    (prs_created prs_reviewed : grouped PR.t)
    (dir_name : string) (include_body : bool) (doc : string) :
  generate_markdown py_repr strftime_Y commits issues_created issues_commented
    prs_created prs_reviewed dir_name include_body = Ok doc ->
  ends_with_newline doc = true.
Proof.
  intro H. unfold generate_markdown in H. inv_bind H. apply Ok_inj in H.
  subst doc.
  apply generate_markdown_lines_shape in E
    as (period & s1 & s2 & s3 & s4 & s5 & _ & _ & _ & _ & E5 & ->).
  apply section_body_ends_blank in E5 as (s' & ->).
  match goal with
  | |- ends_with_newline (join nl (List.concat ?ls)) = true =>
      assert (exists p, p <> [] /\ List.concat ls = app p [""])
        as (p & Np & ->)
  end.
  { eexists. split; [|cbn [List.concat]; rewrite app_nil_r;
                      rewrite !app_assoc; reflexivity].
    simpl. discriminate. }
  rewrite (join_snoc_empty p Np). apply ends_with_newline_append.
Qed.

Lemma document_ends_with_newline_witness :
  ends_with_newline
    (join nl
       [ "---"; "period: unknown"; "source: gh"; "commits: 0";
         "issues_created: 0"; "issues_commented: 0"; "prs_created: 0";
         "prs_reviewed: 0"; "---"; ""; "# Weekly GitHub Activity"; "";
         "## Commits (0)"; ""; "None"; "";
         "## Issues Created (0)"; ""; "None"; "";
         "## Issues Commented (0)"; ""; "None"; "";
         "## PRs Created (0)"; ""; "None"; "";
         "## PRs Reviewed (0)"; ""; "None"; "" ]) = true.
Proof.
  apply (document_ends_with_newline no_repr pad4 [] [] [] [] [] "gh" false).
  reflexivity.
Defined.

(** ** The counts of the document *)

(** X20.  From the five loaded lists to the document: the five counts of
    the metadata block, and the counts in the five section headings, are
    the numbers of raw items of the five lists. *)
Theorem digest_counts (fromisoformat : iso_parser) (py_repr : json -> string)
    (strftime_Y : Z -> string)
    (c ic im pc pr : list json) (dir_name : string) (include_body : bool)
    (doc : string) :
  digest fromisoformat py_repr strftime_Y (JArr c) (JArr ic) (JArr im)
    (JArr pc) (JArr pr)
    dir_name include_body = Ok doc ->
  exists lines,
    doc = join nl lines /\
    nth_error lines 3 = Some ("commits: " ++ str_of_nat (List.length c)) /\
    nth_error lines 4
    = Some ("issues_created: " ++ str_of_nat (List.length ic)) /\
    nth_error lines 5
    = Some ("issues_commented: " ++ str_of_nat (List.length im)) /\
    nth_error lines 6 = Some ("prs_created: " ++ str_of_nat (List.length pc)) /\
    nth_error lines 7
    = Some ("prs_reviewed: " ++ str_of_nat (List.length pr)) /\
    In ("## Commits (" ++ str_of_nat (List.length c) ++ ")") lines /\
    In ("## Issues Created (" ++ str_of_nat (List.length ic) ++ ")") lines /\
    In ("## Issues Commented (" ++ str_of_nat (List.length im) ++ ")") lines /\
    In ("## PRs Created (" ++ str_of_nat (List.length pc) ++ ")") lines /\
    In ("## PRs Reviewed (" ++ str_of_nat (List.length pr) ++ ")") lines.
Proof.
  intro H. unfold digest in H. cbn [py_iter bind] in H.
  inv_bind H. rename v into gc, E into Ec.
  inv_bind H. rename v into gic, E into Eic.
  inv_bind H. rename v into gim, E into Eim.
  inv_bind H. rename v into gpc, E into Epc.
  inv_bind H. rename v into gpr, E into Epr.
  destruct (classifiers_file_every_item fromisoformat) as (Fc & Fi & Fp).
  destruct (Fc _ _ Ec) as (_ & _ & _ & Tc).
  destruct (Fi _ _ Eic) as (_ & _ & _ & Tic).
  destruct (Fi _ _ Eim) as (_ & _ & _ & Tim).
  destruct (Fp _ _ Epc) as (_ & _ & _ & Tpc).
  destruct (Fp _ _ Epr) as (_ & _ & _ & Tpr).
  unfold generate_markdown in H. inv_bind H. apply Ok_inj in H. subst doc.
  apply generate_markdown_lines_shape in E
    as (period & s1 & s2 & s3 & s4 & s5 & _ & _ & _ & _ & _ & ->).
  rewrite Tc, Tic, Tim, Tpc, Tpr.
  eexists. split; [reflexivity|].
  do 5 (split; [reflexivity|]).
  repeat apply conj;
    match goal with
    | |- In ?x _ =>
        apply in_concat; exists [x; ""];
        split; [simpl; tauto | left; reflexivity]
    end.
Qed.

Lemma digest_counts_witness :
  exists lines,
    "---" ++ nl ++ "period: unknown" ++ nl ++ "source: gh" ++ nl
    ++ "commits: 2" ++ nl ++ "issues_created: 0" ++ nl
    ++ "issues_commented: 0" ++ nl ++ "prs_created: 0" ++ nl
    ++ "prs_reviewed: 0" ++ nl ++ "---" ++ nl ++ nl
    ++ "# Weekly GitHub Activity" ++ nl ++ nl
    ++ "## Commits (2)" ++ nl ++ nl ++ "### r" ++ nl
    ++ "- Fix bug" ++ nl ++ "- Fix bug" ++ nl ++ nl
    ++ "## Issues Created (0)" ++ nl ++ nl ++ "None" ++ nl ++ nl
    ++ "## Issues Commented (0)" ++ nl ++ nl ++ "None" ++ nl ++ nl
    ++ "## PRs Created (0)" ++ nl ++ nl ++ "None" ++ nl ++ nl
    ++ "## PRs Reviewed (0)" ++ nl ++ nl ++ "None" ++ nl
    = join nl lines /\
    nth_error lines 3 = Some ("commits: " ++ str_of_nat 2) /\
    nth_error lines 4 = Some ("issues_created: " ++ str_of_nat 0) /\
    nth_error lines 5 = Some ("issues_commented: " ++ str_of_nat 0) /\
    nth_error lines 6 = Some ("prs_created: " ++ str_of_nat 0) /\
    nth_error lines 7 = Some ("prs_reviewed: " ++ str_of_nat 0) /\
    In ("## Commits (" ++ str_of_nat 2 ++ ")") lines /\
    In ("## Issues Created (" ++ str_of_nat 0 ++ ")") lines /\
    In ("## Issues Commented (" ++ str_of_nat 0 ++ ")") lines /\
    In ("## PRs Created (" ++ str_of_nat 0 ++ ")") lines /\
    In ("## PRs Reviewed (" ++ str_of_nat 0 ++ ")") lines.
Proof.
  apply (digest_counts iso_basic no_repr pad4
           [commit_item "r" None; commit_item "r" None] [] [] [] []
           "gh" false).
  vm_compute. reflexivity.
Defined.

(** ** What the renderer reads of a record *)

(** X21.  The renderer reads of a record only what it shows.  The
    Issues Commented and PRs Reviewed sections depend on the titles and
    the states alone, not on dates, bodies, urls or the merged flag; the
    Issues Created and PRs Created sections do not depend on the bodies
    when body inclusion is disabled; so two sets of mappings that agree
    on what is shown give the same outcome. *)
Theorem renderer_reads_what_it_shows (py_repr : json -> string)
    (strftime_Y : Z -> string)
    (c : grouped Commit.t) (ic ic' im im' : grouped Issue.t)
    (pc pc' pr pr' : grouped PR.t) (dir_name : string) (include_body : bool) :
  grel (issue_shown include_body) ic ic' -> grel issue_listed im im' ->
  grel (pr_shown include_body) pc pc' -> grel pr_listed pr pr' ->
  generate_markdown py_repr strftime_Y c ic im pc pr dir_name include_body
  = generate_markdown py_repr strftime_Y c ic' im' pc' pr' dir_name
      include_body.
Proof.
  intros Gic Gim Gpc Gpr.
  assert (Di : forall r r', issue_shown include_body r r' ->
                            Issue.date r = Issue.date r')
    by (intros r r' (_ & _ & E & _); exact E).
  unfold generate_markdown, generate_markdown_lines.
  rewrite (present_dates_rel _ (issue_shown include_body) Issue.date
             Di _ _ Gic).
  rewrite (total_rel _ _ _ _ Gic), (total_rel _ _ _ _ Gim),
          (total_rel _ _ _ _ Gpc), (total_rel _ _ _ _ Gpr).
  rewrite (section_body_rel _ (issue_shown include_body) py_repr
             (issue_created_lines py_repr include_body)
             ltac:(intros [] [] (E1 & E2 & E3 & E4); simpl in *; subst;
                   unfold issue_created_lines; simpl;
                   destruct include_body; [rewrite E4|]; reflexivity)
             _ _ Gic).
  rewrite (section_body_rel _ issue_listed py_repr
             (issue_commented_lines py_repr)
             ltac:(intros [] [] (E1 & E2); simpl in *; subst; reflexivity)
             _ _ Gim).
  rewrite (section_body_rel _ (pr_shown include_body) py_repr
             (pr_created_lines py_repr include_body)
             ltac:(intros [] [] (E1 & E2 & E3 & E4 & E5); simpl in *; subst;
                   unfold pr_created_lines; simpl;
                   destruct include_body; [rewrite E5|]; reflexivity)
             _ _ Gpc).
  rewrite (section_body_rel _ pr_listed py_repr
             (pr_reviewed_lines py_repr)
             ltac:(intros [] [] (E1 & E2); simpl in *; subst; reflexivity)
             _ _ Gpr).
  reflexivity.
Qed.

Lemma renderer_reads_what_it_shows_witness :
  generate_markdown no_repr pad4 [] []
    [(JStr "o/r",
      [Issue.mk (JStr "Bug") "open" (iso_basic "2025-11-20") (JStr "u")
         (JNum 5)])]
    [(JStr "o/r",
      [PR.mk (JStr "T") "open" None (JStr "u") false (JNum 5)])]
    [] "gh" false
  = generate_markdown no_repr pad4 [] []
      [(JStr "o/r",
        [Issue.mk (JStr "Bug") "open" None (JStr "v") (JStr "text")])]
      [(JStr "o/r",
        [PR.mk (JStr "T") "open" None (JStr "v") false (JStr "text")])]
      [] "gh" false.
Proof.
  apply (renderer_reads_what_it_shows no_repr pad4 [] [] []).
  - constructor.
  - repeat constructor.
  - constructor; [|constructor]. split; [reflexivity|].
    constructor; [|constructor]. repeat split; try reflexivity. discriminate.
  - constructor.
Defined.

(** ** main *)

(** X22.  [main] writes the document at the end of a run that got that
    far.  On a path that is not a directory it returns 1, prints the
    error and writes nothing.  On a directory, once the document is
    rendered, it writes this document to the path given with [-o] when
    there is one that is not empty, else to [summary.md] in the
    directory, each as pathlib writes the path; when the write succeeds
    it prints that path and returns 0, and when the write raises, the
    exception leaves [main].  An exception of the loads, the classifiers
    or the renderer leaves the run before the write.  So a run that
    returns 0 has rendered the document and written it, and a run that
    returns 1 has written nothing. *)
Theorem main_law (fromisoformat : iso_parser) (py_repr : json -> string)
    (strftime_Y : Z -> string) (decode : json_decoder)
    (path_str path_name : string -> string)
    (path_join : string -> string -> string)
    (is_dir : string -> bool) (fs : filesystem)
    (write_text : string -> string -> option exn)
    (directory : string) (output : option string) (include_body : bool) :
  let dir_path := path_str directory in
  let rendered :=
    main_markdown fromisoformat py_repr strftime_Y decode fs dir_path
      (path_name dir_path) include_body in
  let output_path :=
    match output with
    | Some (String c o) => path_str (String c o)
    | _ => path_join dir_path "summary.md"
    end in
  let result :=
    main fromisoformat py_repr strftime_Y decode path_str path_name
      path_join is_dir fs write_text directory output include_body in
  (is_dir dir_path = false ->
     result = Ok (mk_run 1 None
                    ("Error: " ++ directory ++ " is not a directory"))) /\
  (is_dir dir_path = true ->
     forall markdown, rendered = Ok markdown ->
       (write_text output_path markdown = None ->
        result = Ok (mk_run 0 (Some (output_path, markdown))
                       ("Generated: " ++ output_path))) /\
       (forall e, write_text output_path markdown = Some e ->
                  result = Raise e)) /\
  (is_dir dir_path = true ->
     forall e, rendered = Raise e -> result = Raise e) /\
  (forall r, result = Ok r ->
     (exit_code r = 0%Z <-> written r <> None) /\
     (exit_code r = 0%Z <-> is_dir dir_path = true) /\
     (exit_code r = 0%Z \/ exit_code r = 1%Z) /\
     (exit_code r = 0%Z ->
      exists markdown,
        rendered = Ok markdown /\
        write_text output_path markdown = None /\
        written r = Some (output_path, markdown))).
Proof.
  intros dir_path rendered output_path result. unfold result, main.
  fold dir_path. fold rendered.
  assert (P : match output with
              | Some o => if truthy (JStr o) then path_str o
                          else path_join dir_path "summary.md"
              | None => path_join dir_path "summary.md"
              end = output_path).
  { unfold output_path. destruct output as [[|c o]|]; reflexivity. }
  rewrite P. clear P.
  destruct (is_dir dir_path); simpl.
  - split; [discriminate|]. split.
    { intros _ md ->. simpl. split.
      - intros ->. reflexivity.
      - intros e ->. reflexivity. }
    split; [intros _ e ->; reflexivity|].
    intros r H. destruct rendered as [md|e]; simpl in H; [|discriminate].
    destruct (write_text output_path md) eqn:W; [discriminate|].
    injection H as <-. simpl.
    split; [split; [discriminate | reflexivity]|].
    split; [split; reflexivity|]. split; [left; reflexivity|].
    intros _. exists md. auto.
  - split; [reflexivity|]. split; [discriminate|]. split; [discriminate|].
    intros r [= <-]. simpl.
    split; [split; [discriminate | congruence]|].
    split; [split; discriminate|]. split; [right; reflexivity|].
    discriminate.
Qed.

Lemma main_law_witness :
  let path_join := fun p name : string => p ++ "/" ++ name in
  let run_main := main iso_basic no_repr pad4 (fun _ => None)
                    (fun p => p) (fun _ => "gh") path_join in
  run_main (fun _ => false) (fun _ => Absent) (fun _ _ => None)
    "gh" None false
  = Ok (mk_run 1 None ("Error: " ++ "gh" ++ " is not a directory")) /\
  (exists markdown,
     run_main (fun _ => true) (fun _ => Absent) (fun _ _ => None)
       "gh" (Some "") false
     = Ok (mk_run 0 (Some ("gh/summary.md", markdown))
             ("Generated: " ++ "gh/summary.md"))) /\
  run_main (fun _ => true) (fun _ => Absent)
    (fun _ _ => Some PermissionError) "gh" (Some "out.md") false
  = Raise PermissionError.
Proof.
  split; [|split].
  - apply (proj1 (main_law iso_basic no_repr pad4 (fun _ => None)
             (fun p => p) (fun _ => "gh")
             (fun p name : string => p ++ "/" ++ name)
             (fun _ => false) (fun _ => Absent) (fun _ _ => None)
             "gh" None false)). reflexivity.
  - eexists.
    apply (proj1 (proj2 (main_law iso_basic no_repr pad4 (fun _ => None)
             (fun p => p) (fun _ => "gh")
             (fun p name : string => p ++ "/" ++ name)
             (fun _ => true) (fun _ => Absent) (fun _ _ => None)
             "gh" (Some "") false)));
      reflexivity.
  - eapply (proj1 (proj2 (main_law iso_basic no_repr pad4 (fun _ => None)
             (fun p => p) (fun _ => "gh")
             (fun p name : string => p ++ "/" ++ name)
             (fun _ => true) (fun _ => Absent)
             (fun _ _ => Some PermissionError)
             "gh" (Some "out.md") false)));
      reflexivity.
Defined.

(** ** The list line of a commit *)

Lemma string_of_uint_no_newline (u : Decimal.uint) :
  contains NL (NilEmpty.string_of_uint u) = false.
Proof. induction u; simpl; auto. Qed.

Lemma nilzero_uint_no_newline (u : Decimal.uint) :
  contains NL (NilZero.string_of_uint u) = false.
Proof.
  unfold NilZero.string_of_uint.
  destruct u; try reflexivity; apply string_of_uint_no_newline.
Qed.

Lemma str_of_Z_no_newline (n : Z) : contains NL (str_of_Z n) = false.
Proof.
  unfold str_of_Z, NilZero.string_of_int.
  destruct (Z.to_int n) as [u|u].
  - apply nilzero_uint_no_newline.
  - transitivity (contains NL (NilZero.string_of_uint u));
      [reflexivity | apply nilzero_uint_no_newline].
Qed.

Lemma pad2_no_newline (n : Z) : contains NL (pad2 n) = false.
Proof.
  unfold pad2. destruct (n <? 10)%Z;
    [rewrite contains_append|]; rewrite str_of_Z_no_newline; reflexivity.
Qed.

Lemma month_abbr_no_newline (m : Z) : contains NL (month_abbr m) = false.
Proof.
  unfold month_abbr. generalize (Z.to_nat m). intro n.
  do 13 (destruct n as [|n]; [reflexivity|]).
  simpl. destruct n; reflexivity.
Qed.

Lemma date_part_no_newline (d : option datetime) :
  contains NL (date_part d) = false.
Proof.
  unfold date_part, format_date. destruct d as [x|]; [|reflexivity].
  destruct (truthy (JStr (strftime_b_d x))); [|reflexivity].
  unfold strftime_b_d. rewrite !contains_append.
  rewrite month_abbr_no_newline, pad2_no_newline. reflexivity.
Qed.

Lemma commit_record_message (fromisoformat : iso_parser) (item k : json)
    (r : Commit.t) :
  commit_record fromisoformat item = Ok (k, r) ->
  exists m, get_first_line m = Ok (Commit.message r).
Proof.
  unfold commit_record. intro H. repeat inv_bind H.
  injection H as _ <-. simpl. eauto.
Qed.

(** X23.  Every commit of the mapping that [process_commits] returns is
    rendered as one line: the dash, the shortened message of at most 80
    characters and the date in parentheses when there is one, with no
    newline in it, whatever the raw message was. *)
Theorem commit_line_is_one_line (fromisoformat : iso_parser)
    (data : list json) (g : grouped Commit.t) :
  process_commits fromisoformat data = Ok g ->
  forall repo rs r, In (repo, rs) g -> In r rs ->
    String.length (Commit.message r) <= 80 /\
    exists line,
      commit_lines r = Ok [line] /\
      line = "- " ++ Commit.message r ++ date_part (Commit.date r) /\
      contains NL line = false.
Proof.
  intros H repo rs r Hin Hr.
  destruct (classify_records _ _ _ _ H _ _ _ Hin Hr) as (item & k & _ & E).
  apply commit_record_message in E as (m & E).
  apply get_first_line_bounds in E as (L & N & _).
  split; [exact L|]. eexists. split; [reflexivity|]. split; [reflexivity|].
  rewrite !contains_append, N, date_part_no_newline. reflexivity.
Qed.

Lemma commit_line_is_one_line_witness :
  let r := Commit.mk (iso_basic "2025-11-20T10:00:00+00:00") "Fix bug" in
  String.length (Commit.message r) <= 80 /\
  exists line,
    commit_lines r = Ok [line] /\
    line = "- " ++ Commit.message r ++ date_part (Commit.date r) /\
    contains NL line = false.
Proof.
  apply (commit_line_is_one_line iso_basic
           [JObj [ ("repository", JObj [("name", JStr "acme/app")]);
                   ("commit",
                    JObj [ ("message",
                            JStr ("Fix bug" ++ nl ++ "Details..."));
                           ("author",
                            JObj [("date",
                                   JStr "2025-11-20T10:00:00Z")]) ]) ]]
           [(JStr "acme/app",
             [Commit.mk (iso_basic "2025-11-20T10:00:00+00:00") "Fix bug"])]
           ltac:(vm_compute; reflexivity)
           (JStr "acme/app")
           [Commit.mk (iso_basic "2025-11-20T10:00:00+00:00") "Fix bug"]).
  - left. reflexivity.
  - left. reflexivity.
Defined.
